(** * ISO8583 authorization client: a shallow embedding of [iso_client.py]

    The development follows [send_iso_authorization]: the request it builds,
    the length-prefixed frame it writes, the frame it reads back, the mapping
    of the decoded response to a result dictionary, and the catch-all handler
    around the whole exchange.

    Python values are modelled as follows: [str] as [string], [bytes] as
    [list byte], [int] as [Z] (amounts, ports) or [N]/[nat] (lengths), an
    exception instance as a class name with its message, the socket and the
    clock as fields of an explicit [World] threaded through a state and
    exception monad. *)

From stdpp Require Import gmap strings.
From Stdlib Require Import Ascii.
From Stdlib Require Import ZArith NArith Lia.
From Stdlib.Strings Require Import Byte.

Local Open Scope nat_scope.

Definition bytes := list byte.

(** ** Exceptions

    Every failure of a step is an instance of Python's [Exception]: [OSError]
    and [socket.timeout] from the socket, [struct.error] from [struct.pack],
    whatever the message library raises, and the two bare [Exception]s the
    function raises itself.  [str(e)] is the message. *)

Record exn := Raise { exn_class : string; exn_message : string }.

Definition Exception (msg : string) : exn := Raise "Exception" msg.
Definition struct_error (msg : string) : exn := Raise "struct.error" msg.
Definition str (e : exn) : string := exn_message e.

(** ** The world: clock, socket, peer, log *)

Record datetime := {
  year : N; month : N; day : N; hour : N; minute : N; second : N
}.

Inductive sock_state := NoSocket | Created | Connected | Closed.

(** What the peer delivers: each arrival is a run of bytes or a fault of the
    read (timeout, reset).  After the last arrival the peer has closed. *)
Inductive arrival :=
| Data (bs : bytes)
| Fault (e : exn).

Record World := {
  clock : datetime;
  (* behaviour of the environment *)
  socket_error : option exn;                  (* socket.socket(...) raises *)
  connect_error : string -> Z -> option exn;  (* sock.connect((host, port)) raises *)
  send_error : option (nat * exn);            (* sendall raises after that many bytes *)
  incoming : list arrival;
  (* state of the one socket of the call *)
  sock : sock_state;
  timeout : option Z;
  wire : bytes;                               (* bytes written to the peer so far *)
  (* logging *)
  log : list string
}.

Definition set_sock (s : sock_state) (w : World) : World :=
  {| clock := clock w; socket_error := socket_error w;
     connect_error := connect_error w; send_error := send_error w;
     incoming := incoming w; sock := s; timeout := timeout w;
     wire := wire w; log := log w |}.

Definition set_timeout (t : Z) (w : World) : World :=
  {| clock := clock w; socket_error := socket_error w;
     connect_error := connect_error w; send_error := send_error w;
     incoming := incoming w; sock := sock w; timeout := Some t;
     wire := wire w; log := log w |}.

Definition set_incoming (i : list arrival) (w : World) : World :=
  {| clock := clock w; socket_error := socket_error w;
     connect_error := connect_error w; send_error := send_error w;
     incoming := i; sock := sock w; timeout := timeout w;
     wire := wire w; log := log w |}.

Definition write_wire (bs : bytes) (w : World) : World :=
  {| clock := clock w; socket_error := socket_error w;
     connect_error := connect_error w; send_error := send_error w;
     incoming := incoming w; sock := sock w; timeout := timeout w;
     wire := wire w ++ bs; log := log w |}.

Definition write_log (line : string) (w : World) : World :=
  {| clock := clock w; socket_error := socket_error w;
     connect_error := connect_error w; send_error := send_error w;
     incoming := incoming w; sock := sock w; timeout := timeout w;
     wire := wire w; log := log w ++ [line] |}.

(** ** State and exception monad

    A computation runs in a world and either returns a value or raises; the
    world it leaves behind is kept in both cases (an exception does not undo
    what was written to the socket). *)

Definition M (A : Type) : Type := World -> (exn + A) * World.

Definition ret {A} (a : A) : M A := fun w => (inr a, w).

Definition raise {A} (e : exn) : M A := fun w => (inl e, w).

Definition bind {A B} (c : M A) (k : A -> M B) : M B :=
  fun w => match c w with
           | (inr a, w') => k a w'
           | (inl e, w') => (inl e, w')
           end.

(** [try: c except Exception as e: h e] *)
Definition try_except {A} (c : M A) (h : exn -> M A) : M A :=
  fun w => match c w with
           | (inr a, w') => (inr a, w')
           | (inl e, w') => h e w'
           end.

(** A pure step that may raise. *)
Definition lift {A} (r : exn + A) : M A :=
  match r with
  | inr a => ret a
  | inl e => raise e
  end.

Notation "'let!' x ':=' c 'in' k" := (bind c (fun x => k))
  (at level 10, x name, c at level 100, k at level 200,
   format "'[v' 'let!'  x  ':='  c  'in' '/' k ']'").

Notation "'do!' c 'in' k" := (bind c (fun _ => k))
  (at level 10, c at level 100, k at level 200,
   format "'[v' 'do!'  c  'in' '/' k ']'").

(** ** Clock, socket and logging primitives *)

Definition utcnow : M datetime := fun w => (inr (clock w), w).

(** [socket.socket(AF_INET, SOCK_STREAM)] *)
Definition socket_socket : M unit :=
  fun w => match socket_error w with
           | Some e => (inl e, w)
           | None => (inr tt, set_sock Created w)
           end.

Definition settimeout (t : Z) : M unit :=
  fun w => (inr tt, set_timeout t w).

Definition connect (host : string) (port : Z) : M unit :=
  fun w => match connect_error w host port with
           | Some e => (inl e, w)
           | None => (inr tt, set_sock Connected w)
           end.

(** [sock.sendall(data)]: all of [data] is written, or a fault interrupts the
    write after some of it went out. *)
Definition sendall (data : bytes) : M unit :=
  fun w => match send_error w with
           | Some (k, e) => (inl e, write_wire (take k data) w)
           | None => (inr tt, write_wire data w)
           end.

(** [sock.recv(n)]: at most [n] bytes of what has arrived; [b''] once the
    peer has closed.  An arrival of no bytes is not observable. *)
Fixpoint recv_from (n : nat) (arrivals : list arrival)
  : (exn + bytes) * list arrival :=
  match arrivals with
  | [] => (inr [], [])
  | Fault e :: rest => (inl e, rest)
  | Data [] :: rest => recv_from n rest
  | Data bs :: rest =>
      (inr (take n bs),
       match drop n bs with
       | [] => rest
       | later => Data later :: rest
       end)
  end.

Definition recv (n : nat) : M bytes :=
  fun w => let (r, rest) := recv_from n (incoming w) in (r, set_incoming rest w).

Definition close : M unit := fun w => (inr tt, set_sock Closed w).

(** [logging.exception(msg)] *)
Definition logging_exception (msg : string) : M unit :=
  fun w => (inr tt, write_log msg w).

(** ** [struct.pack("!H", n)] and [struct.unpack("!H", b)[0]] *)

Definition struct_pack_H (n : N) : exn + bytes :=
  if (n <=? 65535)%N then
    match Byte.of_N (n / 256), Byte.of_N (n mod 256) with
    | Some hi, Some lo => inr [hi; lo]
    | _, _ => inl (struct_error "'H' format requires 0 <= number <= 65535")
    end
  else inl (struct_error "'H' format requires 0 <= number <= 65535").

Definition struct_unpack_H (b : bytes) : exn + N :=
  match b with
  | [hi; lo] => inr (256 * Byte.to_N hi + Byte.to_N lo)%N
  | _ => inl (struct_error "unpack requires a buffer of 2 bytes")
  end.

(** ** Text formatting: [str(n)], zero fill, [f"{n:012}"], [strftime] *)

Definition digit (d : N) : string :=
  String (Ascii.ascii_of_N (48 + d)) "".

(** Decimal digits of a natural number, most significant first. *)
Fixpoint str_digits (fuel : nat) (n : N) : string :=
  match fuel with
  | O => ""
  | S fuel' =>
      if (n <? 10)%N then digit n
      else str_digits fuel' (n / 10) +:+ digit (n mod 10)
  end.

Definition str_N (n : N) : string :=
  str_digits (S (N.to_nat (N.log2 n))) n.

Fixpoint zeros (k : nat) : string :=
  match k with
  | O => ""
  | S k' => String "0"%char (zeros k')
  end.

(** Left fill with ['0'] up to [width]; longer text is left as it is. *)
Definition zero_fill (width : nat) (s : string) : string :=
  zeros (width - String.length s) +:+ s.

(** [f"{n:012}"] for an [int]: minimum width 12, zeros between the sign and
    the digits. *)
Definition format_012 (n : Z) : string :=
  if (n <? 0)%Z then "-" +:+ zero_fill 11 (str_N (Z.abs_N n))
  else zero_fill 12 (str_N (Z.to_N n)).

(** [now.strftime("%m%d%H%M%S")] *)
Definition strftime_mdHMS (now : datetime) : string :=
  zero_fill 2 (str_N (month now)) +:+ zero_fill 2 (str_N (day now)) +:+
  zero_fill 2 (str_N (hour now)) +:+ zero_fill 2 (str_N (minute now)) +:+
  zero_fill 2 (str_N (second now)).

(** ** The message object *)

Module Iso8583.

(** Modelled from the spec: the [Iso8583] message class comes from the
    [pyiso8583] package, which is not among the sources.  Section 3 of the
    specification gives a message as an MTI with a map from field number
    to value, keys unique; [set_bit] stores a value, [get_bit] reads it
    ([None] for an absent field). *)
Record t := Build { mti : string; bits : gmap nat string }.

Definition new : t := Build "" ∅.

Definition set_mti (m : string) (iso : t) : t := Build m (bits iso).

Definition set_bit (k : nat) (v : string) (iso : t) : t :=
  Build (mti iso) (<[k := v]> (bits iso)).

Definition get_mti (iso : t) : string := mti iso.

Definition get_bit (k : nat) (iso : t) : option string := bits iso !! k.

End Iso8583.

(** The wire codec of the message library: [get_network_message] renders a
    message, [set_network_message] parses one into a fresh object.  Both may
    raise.  The results below hold for every codec. *)
Class Codec := {
  get_network_message : Iso8583.t -> exn + bytes;
  set_network_message : bytes -> exn + Iso8583.t
}.

(** ** The result dictionary

    The function returns one of two dictionaries: the answer of the host
    (keys [approved], [field39], [mti], [amount_received],
    [transaction_time]) or the failure record (keys [approved], [error],
    [field39]). *)

Inductive AuthorizationResult :=
| Answer (approved : bool) (field39 : option string) (mti : string)
         (amount_received transaction_time : option string)
| Failure (approved : bool) (error : string) (field39 : string).

Definition approved (r : AuthorizationResult) : bool :=
  match r with
  | Answer a _ _ _ _ => a
  | Failure a _ _ => a
  end.

Definition field39 (r : AuthorizationResult) : option string :=
  match r with
  | Answer _ c _ _ _ => c
  | Failure _ _ c => Some c
  end.

Definition error (r : AuthorizationResult) : option string :=
  match r with
  | Answer _ _ _ _ _ => None
  | Failure _ e _ => Some e
  end.

(** [v == "00"] on a value that may be [None] *)
Definition value_eqb (v : option string) (s : string) : bool :=
  match v with
  | Some x => String.eqb x s
  | None => false
  end.

(** ** [send_iso_authorization] *)

(** Lines 12-27: the request message. *)
Definition authorization_request (now : datetime) (pan expiry cvv : string)
    (amount_cents : Z) : Iso8583.t :=
  let iso := Iso8583.new in
  let iso := Iso8583.set_mti "0100" iso in
  let iso := Iso8583.set_bit 2 pan iso in
  let iso := Iso8583.set_bit 3 "000000" iso in
  let iso := Iso8583.set_bit 4 (format_012 amount_cents) iso in
  let iso := Iso8583.set_bit 7 (strftime_mdHMS now) iso in
  let iso := Iso8583.set_bit 11 "123456" iso in
  let iso := Iso8583.set_bit 14 expiry iso in
  let iso := Iso8583.set_bit 18 "5999" iso in
  let iso := Iso8583.set_bit 22 "901" iso in
  let iso := Iso8583.set_bit 25 "00" iso in
  let iso := Iso8583.set_bit 35 (pan +:+ "D" +:+ expiry +:+ cvv) iso in
  let iso := Iso8583.set_bit 41 "TERMID01" iso in
  let iso := Iso8583.set_bit 49 "840" iso in
  iso.

(** Lines 31-36: open the socket, connect, write the length-prefixed frame. *)
Definition send_frame (host : string) (port : Z) (msg : bytes) : M unit :=
  do! socket_socket in
  do! settimeout 10 in
  do! connect host port in
  let! prefix := lift (struct_pack_H (N.of_nat (length msg))) in
  let msg_with_len := prefix ++ msg in
  sendall msg_with_len.

(** Lines 43-48: the loop [while len(response) < length].  Every round that
    does not raise adds at least one byte, so [length - len(response)] rounds
    are enough; see [recv_body_fuel]. *)
Fixpoint recv_body (fuel : nat) (length : nat) (response : bytes) : M bytes :=
  if List.length response <? length then
    match fuel with
    | O => raise (Raise "RecursionError" "recv_body")
    | S fuel' =>
        let! chunk := recv (length - List.length response) in
        match chunk with
        | [] => raise (Exception "Socket connection broken")
        | _ => recv_body fuel' length (response ++ chunk)
        end
    end
  else ret response.

(** Lines 38-49: read the 2-byte header, then the body, then close. *)
Definition recv_frame : M bytes :=
  let! raw_len := recv 2 in
  if List.length raw_len <? 2 then
    raise (Exception "Incomplete 2-byte header received")
  else
    let! length := lift (struct_unpack_H raw_len) in
    let! response := recv_body (N.to_nat length) (N.to_nat length) [] in
    do! close in
    ret response.

(** Lines 54-60: the answer read off the decoded response. *)
Definition authorization_result (iso_response : Iso8583.t)
  : AuthorizationResult :=
  Answer (value_eqb (Iso8583.get_bit 39 iso_response) "00")
         (Iso8583.get_bit 39 iso_response)
         (Iso8583.get_mti iso_response)
         (Iso8583.get_bit 4 iso_response)
         (Iso8583.get_bit 12 iso_response).

Section Authorize.

Context {codec : Codec}.

(** Lines 12-60: the body of the [try]. *)
Definition exchange (host : string) (port : Z) (pan expiry cvv : string)
    (amount_cents : Z) : M AuthorizationResult :=
  let! now := utcnow in
  let iso := authorization_request now pan expiry cvv amount_cents in
  let! msg := lift (get_network_message iso) in
  do! send_frame host port msg in
  let! response := recv_frame in
  let! iso_response := lift (set_network_message response) in
  ret (authorization_result iso_response).

(** Lines 62-68: the handler. *)
Definition on_exception (e : exn) : M AuthorizationResult :=
  do! logging_exception "Error in ISO8583 communication" in
  ret (Failure false (str e) "96").

(** Lines 10-68. *)
Definition send_iso_authorization (host : string) (port : Z)
    (pan expiry cvv : string) (amount_cents : Z) : M AuthorizationResult :=
  try_except (exchange host port pan expiry cvv amount_cents) on_exception.

End Authorize.

(** ** Reading decimal text back *)

Definition digit_value (c : ascii) : option N :=
  let n := N_of_ascii c in
  if ((48 <=? n) && (n <=? 57))%N then Some (n - 48)%N else None.

Fixpoint decimal_from (acc : N) (s : string) : option N :=
  match s with
  | EmptyString => Some acc
  | String c rest =>
      match digit_value c with
      | Some d => decimal_from (10 * acc + d) rest
      | None => None
      end
  end.

(** The number a non-empty all-digit text denotes. *)
Definition decimal_value (s : string) : option N :=
  match s with
  | EmptyString => None
  | _ => decimal_from 0 s
  end.


(** What the specification says of field 4: twelve characters, all decimal
    digits, denoting the amount. *)
Definition twelve_digit_amount (amount : Z) (s : string) : Prop :=
  String.length s = 12 /\ (0 <= amount)%Z /\ decimal_value s = Some (Z.to_N amount).

(** The canonical set of populated fields of the request. *)
Definition request_fields : gset nat :=
  {[ 2; 3; 4; 7; 11; 14; 18; 22; 25; 35; 41; 49 ]}.

(** ** The wire format of the specification

    The repository takes the field dictionary and the message codec from
    the [pyiso8583] package ([default_ascii] is its dictionary), whose code
    is not among the sources.  The two modules below follow sections 4.1
    and 4.2 of the specification.  Where it is silent they take the least
    restrictive reading: a field listed without a kind is alphanumeric, an
    LLVAR field listed without a maximum may use the whole range of its
    two-digit prefix, numeric fixed fields are filled with zeros on the
    left and the others with spaces on the right, and [decode] checks
    nothing beyond the two failures the specification names. *)

(** Pure steps that may raise. *)
Definition bind_result {A B} (r : exn + A) (k : A -> exn + B) : exn + B :=
  match r with
  | inr a => k a
  | inl e => inl e
  end.

Notation "'try!' x ':=' r 'in' k" := (bind_result r (fun x => k))
  (at level 10, x name, r at level 100, k at level 200,
   format "'[v' 'try!'  x  ':='  r  'in' '/' k ']'").

Notation "'try!' ( x , y ) ':=' r 'in' k" :=
  (bind_result r (fun p => let (x, y) := p in k))
  (at level 10, x name, y name, r at level 100, k at level 200,
   format "'[v' 'try!'  ( x ,  y )  ':='  r  'in' '/' k ']'").

Module FieldDictionary.

Inductive kind := numeric | alphanumeric | binary.

Inductive lengthRule := fixed (n : nat) | variableLVAR | variableLLVAR.

Record FieldSpec := {
  number : nat;
  field_kind : kind;
  rule : lengthRule;
  max_length : nat      (* the width of a fixed field, the bound of a variable one *)
}.

Definition UnknownField (k : nat) : exn :=
  Raise "UnknownField" (str_N (N.of_nat k)).

(** Modelled from the spec: the dictionary of the [pyiso8583] package is
    not among the sources; these are the fields section 4.1 lists, with
    their kind and length rule. *)
Definition default_ascii : list FieldSpec :=
  [ {| number := 2;  field_kind := numeric;      rule := variableLLVAR; max_length := 19 |};
    {| number := 3;  field_kind := numeric;      rule := fixed 6;       max_length := 6 |};
    {| number := 4;  field_kind := numeric;      rule := fixed 12;      max_length := 12 |};
    {| number := 7;  field_kind := numeric;      rule := fixed 10;      max_length := 10 |};
    {| number := 11; field_kind := numeric;      rule := fixed 6;       max_length := 6 |};
    {| number := 12; field_kind := numeric;      rule := fixed 6;       max_length := 6 |};
    {| number := 14; field_kind := numeric;      rule := fixed 4;       max_length := 4 |};
    {| number := 18; field_kind := numeric;      rule := fixed 4;       max_length := 4 |};
    {| number := 22; field_kind := alphanumeric; rule := fixed 3;       max_length := 3 |};
    {| number := 25; field_kind := alphanumeric; rule := fixed 2;       max_length := 2 |};
    {| number := 35; field_kind := alphanumeric; rule := variableLLVAR; max_length := 99 |};
    {| number := 39; field_kind := alphanumeric; rule := fixed 2;       max_length := 2 |};
    {| number := 41; field_kind := alphanumeric; rule := fixed 8;       max_length := 8 |};
    {| number := 49; field_kind := numeric;      rule := fixed 3;       max_length := 3 |} ].

Definition find (k : nat) : option FieldSpec :=
  List.find (fun s => Nat.eqb (number s) k) default_ascii.

(** Modelled from the spec: [lookup(fieldNumber) -> FieldSpec], failing
    with [UnknownField] for a field that is not registered. *)
Definition lookup (k : nat) : exn + FieldSpec :=
  match find k with
  | Some s => inr s
  | None => inl (UnknownField k)
  end.

End FieldDictionary.

Module MessageCodec.

Import FieldDictionary.

Definition EncodingError (msg : string) : exn := Raise "EncodingError" msg.
Definition DecodingError (msg : string) : exn := Raise "DecodingError" msg.
Definition TruncatedMessage : exn := DecodingError "TruncatedMessage".
Definition MalformedField : exn := DecodingError "MalformedField".

(** *** Character classes and text *)

Definition is_digit (c : ascii) : bool :=
  let n := N_of_ascii c in ((48 <=? n) && (n <=? 57))%N.

Definition is_alnum (c : ascii) : bool :=
  let n := N_of_ascii c in
  is_digit c || ((65 <=? n) && (n <=? 90))%N || ((97 <=? n) && (n <=? 122))%N.

Fixpoint all_chars (p : ascii -> bool) (s : string) : bool :=
  match s with
  | EmptyString => true
  | String c rest => p c && all_chars p rest
  end.

Definition in_class (k : kind) (s : string) : bool :=
  match k with
  | numeric => all_chars is_digit s
  | alphanumeric => all_chars is_alnum s
  | binary => true
  end.

Fixpoint spaces (k : nat) : string :=
  match k with
  | O => ""
  | S k' => String " "%char (spaces k')
  end.

(** The number of digits of the length prefix. *)
Definition prefix_width (r : lengthRule) : nat :=
  match r with
  | fixed _ => 0
  | variableLVAR => 1
  | variableLLVAR => 2
  end.

(** *** Bitmap: eight bytes, the first bit of the first byte is field 1 *)

Fixpoint bits_to_bytes (bits : list bool) : bytes :=
  match bits with
  | b0 :: b1 :: b2 :: b3 :: b4 :: b5 :: b6 :: b7 :: rest =>
      Byte.of_bits (b7, (b6, (b5, (b4, (b3, (b2, (b1, b0)))))))
      :: bits_to_bytes rest
  | _ => []
  end.

Definition byte_to_bits (b : byte) : list bool :=
  let '(b7, (b6, (b5, (b4, (b3, (b2, (b1, b0))))))) := Byte.to_bits b in
  [b0; b1; b2; b3; b4; b5; b6; b7].

Definition bytes_to_bits (bs : bytes) : list bool :=
  flat_map byte_to_bits bs.

(** Field 1 announces a secondary bitmap, which this format never has. *)
Definition present (fields : gmap nat string) (k : nat) : bool :=
  if Nat.eqb k 1 then false else bool_decide (is_Some (fields !! k)).

Definition bitmap (fields : gmap nat string) : bytes :=
  bits_to_bytes (map (present fields) (seq 1 64)).

Definition bit_set (bits : list bool) (k : nat) : bool :=
  nth (k - 1) bits false.

(** *** Fields *)

(** Modelled from the spec: the encoder is not among the sources.  A fixed
    field is emitted as it is, filled to its width if shorter; a variable
    field follows the decimal digits of its length; a value outside the
    character class or the length rule is an [EncodingError]. *)
Definition encode_field (s : FieldSpec) (v : string) : exn + bytes :=
  if negb (in_class (field_kind s) v) then
    inl (EncodingError "character class")
  else if max_length s <? String.length v then
    inl (EncodingError "length rule")
  else
    match rule s with
    | fixed n =>
        match field_kind s with
        | numeric => inr (String.list_byte_of_string (zero_fill n v))
        | _ => inr (String.list_byte_of_string (v +:+ spaces (n - String.length v)))
        end
    | r =>
        let width := prefix_width r in
        let len := str_N (N.of_nat (String.length v)) in
        if width <? String.length len then
          inl (EncodingError "length rule")
        else inr (String.list_byte_of_string (zero_fill width len +:+ v))
    end.

Fixpoint encode_fields (ks : list nat) (fields : gmap nat string)
  : exn + bytes :=
  match ks with
  | [] => inr []
  | k :: ks' =>
      match fields !! k with
      | None => encode_fields ks' fields
      | Some v =>
          try! s := lookup k in
          try! b := encode_field s v in
          try! rest := encode_fields ks' fields in
          inr (b ++ rest)
      end
  end.

(** The fields an MTI requires. *)
Definition required (mti : string) : list nat :=
  if String.eqb mti "0100" then [2; 3; 4; 7; 11] else [].

Definition known (k : nat) : bool :=
  match find k with
  | Some _ => true
  | None => false
  end.

(** Modelled from the spec: the encoder is not among the sources.
    [encode] emits the four bytes of the MTI, the primary bitmap and the
    present fields in ascending order; it fails with [EncodingError] on a
    field outside the dictionary or a missing required field. *)
Definition encode (m : Iso8583.t) : exn + bytes :=
  let fields := Iso8583.bits m in
  if negb ((String.length (Iso8583.mti m) =? 4)
           && all_chars is_digit (Iso8583.mti m)) then
    inl (EncodingError "mti")
  else if negb (forallb known (map fst (map_to_list fields))) then
    inl (EncodingError "unknown field")
  else if negb (forallb (present fields) (required (Iso8583.mti m))) then
    inl (EncodingError "required field missing")
  else
    try! body := encode_fields (seq 2 63) fields in
    inr (String.list_byte_of_string (Iso8583.mti m) ++ bitmap fields ++ body).

(** *** Decoding *)

Definition read (n : nat) (data : bytes) : exn + (bytes * bytes) :=
  if length data <? n then inl TruncatedMessage
  else inr (take n data, drop n data).

(** Modelled from the spec: the decoder is not among the sources.  A field
    is read by its length rule; [TruncatedMessage] when the bytes end
    early, [MalformedField] when a length prefix is not made of digits. *)
Definition decode_field (s : FieldSpec) (data : bytes)
  : exn + (string * bytes) :=
  match rule s with
  | fixed n =>
      try! (v, rest) := read n data in
      inr (String.string_of_list_byte v, rest)
  | r =>
      try! (p, rest) := read (prefix_width r) data in
      match decimal_value (String.string_of_list_byte p) with
      | None => inl MalformedField
      | Some len =>
          try! (v, rest') := read (N.to_nat len) rest in
          inr (String.string_of_list_byte v, rest')
      end
  end.

Fixpoint decode_fields (ks : list nat) (bits : list bool) (data : bytes)
    (fields : gmap nat string) : exn + gmap nat string :=
  match ks with
  | [] => inr fields
  | k :: ks' =>
      if bit_set bits k then
        try! s := lookup k in
        try! (v, rest) := decode_field s data in
        decode_fields ks' bits rest (<[k := v]> fields)
      else decode_fields ks' bits data fields
  end.

(** Modelled from the spec: the decoder is not among the sources.
    [decode] reads the four bytes of the MTI and the eight of the bitmap,
    then walks the bit positions 2 to 64 in ascending order. *)
Definition decode (data : bytes) : exn + Iso8583.t :=
  try! (mti, rest) := read 4 data in
  try! (bm, rest') := read 8 rest in
  try! fields := decode_fields (seq 2 63) (bytes_to_bits bm) rest' ∅ in
  inr (Iso8583.Build (String.string_of_list_byte mti) fields).

(** *** Messages within the constraints of the dictionary

    A value fits its field when it is in the character class, not longer
    than the field allows, exactly as wide as a fixed field, and short
    enough for the length prefix of a variable one.  A message is valid
    when its MTI is four digits, every field it holds is in the
    dictionary with a value that fits, and the fields its MTI requires
    are there. *)

Definition fits (s : FieldSpec) (v : string) : bool :=
  in_class (field_kind s) v
  && (String.length v <=? max_length s)
  && match rule s with
     | fixed n => String.length v =? n
     | r => String.length v <? 10 ^ prefix_width r
     end.

Definition field_valid (kv : nat * string) : bool :=
  match find (fst kv) with
  | Some s => fits s (snd kv)
  | None => false
  end.

(** Modelled from the spec: a message within the constraints of the
    dictionary (section 3 and the failures of [encode] in section 4.2). *)
Definition valid (m : Iso8583.t) : bool :=
  (String.length (Iso8583.mti m) =? 4)
  && all_chars is_digit (Iso8583.mti m)
  && forallb field_valid (map_to_list (Iso8583.bits m))
  && forallb (present (Iso8583.bits m)) (required (Iso8583.mti m)).

(** The fields among [ks] that [fields] holds, stored into [acc] in the
    order of [ks]: what [decode_fields] rebuilds. *)
Definition store_present (fields : gmap nat string) (acc : gmap nat string)
    (k : nat) : gmap nat string :=
  match fields !! k with
  | Some v => <[k := v]> acc
  | None => acc
  end.

End MessageCodec.

(** The codec of the specification as an instance of the interface. *)
Definition spec_codec : Codec := {|
  get_network_message := MessageCodec.encode;
  set_network_message := MessageCodec.decode
|}.

(** ** Sample worlds and messages *)

Definition sample_now : datetime :=
  {| year := 2026; month := 11; day := 3; hour := 9; minute := 5; second := 7 |}.

(** A host that accepts the connection and the request, and delivers the
    given arrivals before it closes. *)
Definition host_delivering (arrivals : list arrival) : World :=
  {| clock := sample_now; socket_error := None;
     connect_error := fun _ _ => None; send_error := None;
     incoming := arrivals; sock := NoSocket; timeout := None;
     wire := []; log := [] |}.

(** A host that refuses the connection. *)
Definition host_refusing : World :=
  {| clock := sample_now; socket_error := None;
     connect_error := fun _ _ => Some (Raise "ConnectionRefusedError"
                                         "[Errno 111] Connection refused");
     send_error := None; incoming := []; sock := NoSocket; timeout := None;
     wire := []; log := [] |}.

(** The bytes of a message under the codec of the specification ([b''] when
    it does not encode). *)
Definition wire_bytes (m : Iso8583.t) : bytes :=
  match MessageCodec.encode m with
  | inr b => b
  | inl _ => []
  end.

(** A payload behind its length prefix. *)
Definition framed (payload : bytes) : bytes :=
  match struct_pack_H (N.of_nat (length payload)) with
  | inr prefix => prefix ++ payload
  | inl _ => []
  end.

Definition approval : Iso8583.t :=
  Iso8583.Build "0110" {[ 4 := "000000001000"; 39 := "00" ]}.

Definition refusal : Iso8583.t :=
  Iso8583.Build "0110" {[ 4 := "000000001000"; 39 := "05" ]}.

(** A codec whose messages do not fit a frame. *)
Definition oversize_codec : Codec := {|
  get_network_message := fun _ => inr (repeat x00 (N.to_nat 65536));
  set_network_message := MessageCodec.decode
|}.

(** ** The payout wrappers of [utils/crypto_utils.py]

    The three functions drive two client libraries ([web3], [tronpy]) and
    Python's [Decimal].  None of them is part of the sources: they are
    interfaces here, every operation a function that returns or raises, and
    the results hold for every implementation.  What the functions add is a
    guard, an order of calls, a log and a way of failing; these are
    modelled as they are written.  The environment holds the process
    variables ([os.getenv]), the clock as text ([str(datetime.now())], a new
    reading at every call), the log records and the library operations
    performed so far. *)

Module Payout.

(** Python's [Decimal], as far as the code uses it. *)
Class DecimalLib := {
  Decimal : Type;
  Decimal_of_str : string -> exn + Decimal;   (* Decimal(text) *)
  Decimal_str : Decimal -> string;            (* str(d) *)
  Decimal_truth : Decimal -> bool;            (* bool(d) *)
  Decimal_units : Decimal -> Z -> exn + Z     (* int(d * (10 ** decimals)) *)
}.

(** [erc20_abi()], lines 24-35. *)
Record abi_param := { abi_param_name : string; abi_param_type : string }.

Record abi_entry := {
  abi_constant : bool;
  abi_inputs : list abi_param;
  abi_name : string;
  abi_outputs : list abi_param;
  abi_type : string
}.

Definition erc20_abi : list abi_entry :=
  [ {| abi_constant := false;
       abi_inputs := [ {| abi_param_name := "_to"; abi_param_type := "address" |};
                       {| abi_param_name := "_value"; abi_param_type := "uint256" |} ];
       abi_name := "transfer";
       abi_outputs := [ {| abi_param_name := ""; abi_param_type := "bool" |} ];
       abi_type := "function" |};
    {| abi_constant := true;
       abi_inputs := [];
       abi_name := "decimals";
       abi_outputs := [ {| abi_param_name := ""; abi_param_type := "uint8" |} ];
       abi_type := "function" |} ].

(** The dictionary given to [build_transaction]. *)
Record tx_params := { chainId : Z; gas : Z; gasPrice : Z; nonce : Z }.

(** The operations of [web3] the ERC20 payout performs.  A key, an address
    or a URL is a Python value that may be [None]. *)
Class Web3Lib := {
  web3 : Type; account : Type; address : Type; contract : Type;
  contract_call : Type; transaction : Type; signed_transaction : Type;
  tx_hash : Type;
  Web3_HTTPProvider : option string -> exn + web3;
  is_connected : web3 -> exn + bool;
  from_key : web3 -> option string -> exn + account;
  to_checksum_address : web3 -> option string -> exn + address;
  eth_contract : web3 -> address -> list abi_entry -> exn + contract;
  decimals_call : contract -> exn + Z;
  get_transaction_count : web3 -> account -> exn + Z;
  transfer : contract -> address -> Z -> exn + contract_call;
  chain_id : web3 -> exn + Z;
  gas_price : web3 -> exn + Z;
  build_transaction : contract_call -> tx_params -> exn + transaction;
  sign_transaction : account -> transaction -> exn + signed_transaction;
  send_raw_transaction : web3 -> signed_transaction -> exn + tx_hash;
  to_hex : web3 -> tx_hash -> exn + string
}.

(** What [contract.functions.decimals] is in [tronpy]: something to call, or
    the number itself. *)
Inductive decimals_attribute :=
| Callable (called : exn + Z)
| Plain (value : Z).

(** The operations of [tronpy] the TRC20 payout performs.  The result of a
    broadcast is a dictionary with text values. *)
Class TronLib := {
  tron : Type; private_key : Type; tron_contract : Type;
  tron_builder : Type; tron_transaction : Type;
  Tron_new : exn + tron;
  bytes_fromhex : option string -> exn + bytes;
  PrivateKey : bytes -> exn + private_key;
  get_contract : tron -> option string -> exn + tron_contract;
  functions_decimals : tron_contract -> exn + decimals_attribute;
  tron_transfer : tron_contract -> string -> Z -> exn + tron_builder;
  to_base58check_address : private_key -> exn + string;
  with_owner : tron_builder -> string -> exn + tron_builder;
  fee_limit : tron_builder -> Z -> exn + tron_builder;
  build : tron_builder -> exn + tron_transaction;
  sign : tron_transaction -> private_key -> exn + tron_transaction;
  broadcast : tron_transaction -> exn + gmap string string;
  str_result : gmap string string -> string
}.

(** The library operations, by name, as they are recorded. *)
Inductive operation :=
| op_Web3 | op_is_connected | op_from_key | op_to_checksum_address
| op_contract | op_decimals | op_get_transaction_count | op_transfer
| op_chain_id | op_gas_price | op_build_transaction | op_sign_transaction
| op_send_raw_transaction | op_to_hex
| op_Tron | op_PrivateKey | op_get_contract | op_functions_decimals
| op_call_decimals | op_tron_transfer | op_to_base58check_address
| op_with_owner | op_fee_limit | op_build | op_sign | op_broadcast.

Inductive level := INFO | ERROR.

Record Env := {
  getenv : string -> option string;
  now_at : nat -> string;          (* the text of the n-th clock reading *)
  readings : nat;                  (* clock readings so far *)
  journal : list (level * string);
  performed : list operation
}.

Definition P (A : Type) : Type := Env -> (exn + A) * Env.

Definition ret {A} (a : A) : P A := fun w => (inr a, w).

Definition raise {A} (e : exn) : P A := fun w => (inl e, w).

Definition bind {A B} (c : P A) (k : A -> P B) : P B :=
  fun w => match c w with
           | (inr a, w') => k a w'
           | (inl e, w') => (inl e, w')
           end.

(** [try: c except Exception as e: h e] *)
Definition try_except {A} (c : P A) (h : exn -> P A) : P A :=
  fun w => match c w with
           | (inr a, w') => (inr a, w')
           | (inl e, w') => h e w'
           end.

Definition lift {A} (r : exn + A) : P A :=
  match r with
  | inr a => ret a
  | inl e => raise e
  end.

Notation "'let&' x ':=' c 'in' k" := (bind c (fun x => k))
  (at level 10, x name, c at level 100, k at level 200,
   format "'[v' 'let&'  x  ':='  c  'in' '/' k ']'").

Notation "'do&' c 'in' k" := (bind c (fun _ => k))
  (at level 10, c at level 100, k at level 200,
   format "'[v' 'do&'  c  'in' '/' k ']'").

(** [str(datetime.now())] *)
Definition datetime_now : P string :=
  fun w => (inr (now_at w (readings w)),
            {| getenv := getenv w; now_at := now_at w;
               readings := S (readings w); journal := journal w;
               performed := performed w |}).

Definition logging (l : level) (text : string) : P unit :=
  fun w => (inr tt,
            {| getenv := getenv w; now_at := now_at w;
               readings := readings w; journal := journal w ++ [(l, text)];
               performed := performed w |}).

Definition os_getenv (name : string) : P (option string) :=
  fun w => (inr (getenv w name), w).

(** A library operation: it is recorded, then it returns or raises. *)
Definition perform {A} (op : operation) (r : exn + A) : P A :=
  fun w => (r,
            {| getenv := getenv w; now_at := now_at w;
               readings := readings w; journal := journal w;
               performed := performed w ++ [op] |}).

Definition ValueError (msg : string) : exn := Raise "ValueError" msg.
Definition ConnectionError (msg : string) : exn := Raise "ConnectionError" msg.
Definition TronError (msg : string) : exn := Raise "TronError" msg.

(** Truth of a text that may be [None]: false for [None] and for [""]. *)
Definition truth (v : option string) : bool :=
  match v with
  | Some (String _ _) => true
  | _ => false
  end.

(** [all(values)] *)
Definition all (values : list bool) : bool := forallb id values.

(** [str.upper] on ASCII text: the letters a to z become A to Z, every
    other character is left as it is. *)
Definition upper_char (c : ascii) : ascii :=
  let n := N_of_ascii c in
  if ((97 <=? n) && (n <=? 122))%N then ascii_of_N (n - 32) else c.

Fixpoint upper (s : string) : string :=
  match s with
  | EmptyString => EmptyString
  | String c rest => String (upper_char c) (upper rest)
  end.

Section Wrappers.

Context {decimal : DecimalLib} {eth : Web3Lib} {trx : TronLib}.

(** Lines 44-66: the body of the [try] of the ERC20 payout. *)
Definition erc20_attempt (private_key : option string) (to_address : string)
    (amount : Decimal) (contract_address infura_url : option string)
  : P string :=
  let& web3 := perform op_Web3 (Web3_HTTPProvider infura_url) in
   let& connected := perform op_is_connected (is_connected web3) in
   if negb connected then
     raise (ConnectionError "Failed to connect to Ethereum node.")
   else
     let& acct := perform op_from_key (from_key web3 private_key) in
     let& contract_at := perform op_to_checksum_address
                           (to_checksum_address web3 contract_address) in
     let& contract := perform op_contract
                        (eth_contract web3 contract_at erc20_abi) in
     let& decimals := perform op_decimals (decimals_call contract) in
     let& value := lift (Decimal_of_str (Decimal_str amount)) in
     let& amt_wei := lift (Decimal_units value decimals) in
     let& nonce := perform op_get_transaction_count
                     (get_transaction_count web3 acct) in
     let& recipient := perform op_to_checksum_address
                         (to_checksum_address web3 (Some to_address)) in
     let& call := perform op_transfer
                    (transfer contract recipient amt_wei) in
     let& chain := perform op_chain_id (chain_id web3) in
     let& price := perform op_gas_price (gas_price web3) in
     let& tx := perform op_build_transaction
                  (build_transaction call
                     {| chainId := chain; gas := 90000;
                        gasPrice := price; nonce := nonce |}) in
     let& signed_tx := perform op_sign_transaction
                         (sign_transaction acct tx) in
     let& sent := perform op_send_raw_transaction
                    (send_raw_transaction web3 signed_tx) in
     perform op_to_hex (to_hex web3 sent).

(** Lines 68-70: the handler logs the failure and raises it again. *)
Definition erc20_on_error (e : exn) : P string :=
  let& now := datetime_now in
  do& logging ERROR ("[" +:+ now +:+ "] ERC20 payout failed: "
                     +:+ str e) in
  raise e.

(** Lines 37-70.  The amount is a [Decimal], as [process_crypto_payout]
    passes it; the recipient is a text. *)
Definition send_erc20_payout (private_key : option string)
    (to_address : string) (amount : Decimal)
    (contract_address infura_url : option string) : P string :=
  let& now := datetime_now in
  do& logging INFO ("[" +:+ now +:+ "] Initiating ERC20 payout to "
                    +:+ to_address +:+ " for " +:+ Decimal_str amount) in
  if negb (all [truth private_key; truth (Some to_address);
                Decimal_truth amount; truth contract_address;
                truth infura_url]) then
    raise (ValueError "Missing ERC20 payout parameters.")
  else
    try_except
      (erc20_attempt private_key to_address amount contract_address
         infura_url)
      erc20_on_error.

(** Lines 79-104: the body of the [try] of the TRC20 payout.
    [bytes.fromhex] is Python's own and is not counted among the library
    operations. *)
Definition trc20_attempt (tron_private_key : option string)
    (to_address : string) (amount : Decimal)
    (contract_address : option string) : P string :=
  let& client := perform op_Tron Tron_new in
   let& raw_key := lift (bytes_fromhex tron_private_key) in
   let& priv_key := perform op_PrivateKey (PrivateKey raw_key) in
   let& contract := perform op_get_contract
                      (get_contract client contract_address) in
   let& attribute := perform op_functions_decimals
                       (functions_decimals contract) in
   let& decimals := match attribute with
                    | Callable called => perform op_call_decimals called
                    | Plain value => ret value
                    end in
   let& value := lift (Decimal_of_str (Decimal_str amount)) in
   let& amt := lift (Decimal_units value decimals) in
   let& call := perform op_tron_transfer
                  (tron_transfer contract to_address amt) in
   let& owner := perform op_to_base58check_address
                   (to_base58check_address priv_key) in
   let& owned := perform op_with_owner (with_owner call owner) in
   let& limited := perform op_fee_limit (fee_limit owned 2000000) in
   let& built := perform op_build (build limited) in
   let& txn := perform op_sign (sign built priv_key) in
   let& result := perform op_broadcast (broadcast txn) in
   let txid := result !! "txid" in
   if negb (truth txid) then
     let msg := default (str_result result) (result !! "message") in
     raise (TronError ("TRC20 broadcast failed: " +:+ msg))
   else ret (default "" txid).

(** Lines 106-108: the handler logs the failure and raises it again. *)
Definition trc20_on_error (e : exn) : P string :=
  let& now := datetime_now in
  do& logging ERROR ("[" +:+ now +:+ "] TRC20 payout failed: "
                     +:+ str e) in
  raise e.

(** Lines 72-108. *)
Definition send_trc20_payout (tron_private_key : option string)
    (to_address : string) (amount : Decimal)
    (contract_address : option string) : P string :=
  let& now := datetime_now in
  do& logging INFO ("[" +:+ now +:+ "] Initiating TRC20 payout to "
                    +:+ to_address +:+ " for " +:+ Decimal_str amount) in
  if negb (all [truth tron_private_key; truth (Some to_address);
                Decimal_truth amount; truth contract_address]) then
    raise (ValueError "Missing TRC20 payout parameters.")
  else
    try_except
      (trc20_attempt tron_private_key to_address amount contract_address)
      trc20_on_error.

(** Lines 110-135.  [amount] is given as its text [str(amount)], the only
    way the function looks at it; [currency] is not looked at. *)
Definition process_crypto_payout (wallet : string) (amount : string)
    (currency : string) (network : string) : P string :=
  let network := upper network in
  let& amount := lift (Decimal_of_str amount) in
  if String.eqb network "ERC20" then
    let& private_key := os_getenv "ERC20_PRIVATE_KEY" in
    let& contract_address := os_getenv "ERC20_CONTRACT_ADDRESS" in
    let& infura_url := os_getenv "INFURA_URL" in
    send_erc20_payout private_key wallet amount contract_address infura_url
  else if String.eqb network "TRC20" then
    let& tron_private_key := os_getenv "TRC20_PRIVATE_KEY" in
    let& contract_address := os_getenv "TRC20_CONTRACT_ADDRESS" in
    send_trc20_payout tron_private_key wallet amount contract_address
  else raise (ValueError "Unsupported network: must be ERC20 or TRC20").

End Wrappers.

End Payout.

(** Small implementations of the three interfaces, to run the wrappers. *)
Module PayoutDemo.

(** Whole amounts only: the text must be decimal digits. *)
Definition whole_amounts : Payout.DecimalLib := {|
  Payout.Decimal := N;
  Payout.Decimal_of_str := fun text =>
    match decimal_value text with
    | Some n => inr n
    | None => inl (Raise "decimal.InvalidOperation" text)
    end;
  Payout.Decimal_str := str_N;
  Payout.Decimal_truth := fun n => negb (N.eqb n 0);
  Payout.Decimal_units := fun n decimals =>
    inr (Z.of_N n * 10 ^ decimals)%Z
|}.

(** A node that reports whether it is reachable and, if so, accepts
    everything; the objects of the library are texts. *)
Definition node (reachable : bool) : Payout.Web3Lib := {|
  Payout.web3 := string; Payout.account := string; Payout.address := string;
  Payout.contract := string; Payout.contract_call := string;
  Payout.transaction := string; Payout.signed_transaction := string;
  Payout.tx_hash := string;
  Payout.Web3_HTTPProvider := fun url => inr (default "" url);
  Payout.is_connected := fun _ => inr reachable;
  Payout.from_key := fun _ key => inr (default "" key);
  Payout.to_checksum_address := fun _ a => inr (default "" a);
  Payout.eth_contract := fun _ a _ => inr a;
  Payout.decimals_call := fun _ => inr 6%Z;
  Payout.get_transaction_count := fun _ _ => inr 7%Z;
  Payout.transfer := fun _ to value => inr to;
  Payout.chain_id := fun _ => inr 1%Z;
  Payout.gas_price := fun _ => inr 30%Z;
  Payout.build_transaction := fun call _ => inr call;
  Payout.sign_transaction := fun _ tx => inr tx;
  Payout.send_raw_transaction := fun _ _ => inr "hash";
  Payout.to_hex := fun _ h => inr ("0x" +:+ h)
|}.

(** A Tron client whose broadcast answers with the given dictionary. *)
Definition tron_answering (answer : gmap string string) : Payout.TronLib := {|
  Payout.tron := unit; Payout.private_key := bytes;
  Payout.tron_contract := string; Payout.tron_builder := string;
  Payout.tron_transaction := string;
  Payout.Tron_new := inr tt;
  Payout.bytes_fromhex := fun _ => inr [x01];
  Payout.PrivateKey := fun raw => inr raw;
  Payout.get_contract := fun _ a => inr (default "" a);
  Payout.functions_decimals := fun _ => inr (Payout.Callable (inr 6%Z));
  Payout.tron_transfer := fun _ to _ => inr to;
  Payout.to_base58check_address := fun _ => inr "TOwner";
  Payout.with_owner := fun b _ => inr b;
  Payout.fee_limit := fun b _ => inr b;
  Payout.build := fun b => inr b;
  Payout.sign := fun t _ => inr t;
  Payout.broadcast := fun _ => inr answer;
  Payout.str_result := fun _ => "{...}"
|}.

(** A process with the given variables, an empty log and a clock whose
    readings are "t0", "t1", ... *)
Definition process (variables : string -> option string) : Payout.Env := {|
  Payout.getenv := variables;
  Payout.now_at := fun n => "t" +:+ str_N (N.of_nat n);
  Payout.readings := 0;
  Payout.journal := [];
  Payout.performed := []
|}.

Definition configured (name : string) : option string :=
  if String.eqb name "ERC20_PRIVATE_KEY" then Some "k1"
  else if String.eqb name "ERC20_CONTRACT_ADDRESS" then Some "c1"
  else if String.eqb name "INFURA_URL" then Some "https://node"
  else if String.eqb name "TRC20_PRIVATE_KEY" then Some "01"
  else if String.eqb name "TRC20_CONTRACT_ADDRESS" then Some "c2"
  else None.

(** The same process without the private key of the ERC20 payout. *)
Definition without_key (name : string) : option string :=
  if String.eqb name "ERC20_PRIVATE_KEY" then None else configured name.

(** Two answers of a broadcast. *)
Definition accepted : gmap string string := {[ "txid" := "abc" ]}.

Definition rejected : gmap string string := {[ "message" := "bad signature" ]}.

End PayoutDemo.

(** The library operations of a complete ERC20 payout, in the order of the
    source, and those of a complete TRC20 payout ([decimals] is called when
    the attribute is callable). *)
Definition erc20_operations : list Payout.operation :=
  [ Payout.op_Web3; Payout.op_is_connected; Payout.op_from_key;
    Payout.op_to_checksum_address; Payout.op_contract; Payout.op_decimals;
    Payout.op_get_transaction_count; Payout.op_to_checksum_address;
    Payout.op_transfer; Payout.op_chain_id; Payout.op_gas_price;
    Payout.op_build_transaction; Payout.op_sign_transaction;
    Payout.op_send_raw_transaction; Payout.op_to_hex ].

Definition trc20_operations (callable : bool) : list Payout.operation :=
  [ Payout.op_Tron; Payout.op_PrivateKey; Payout.op_get_contract;
    Payout.op_functions_decimals ]
  ++ (if callable then [Payout.op_call_decimals] else [])
  ++ [ Payout.op_tron_transfer; Payout.op_to_base58check_address;
       Payout.op_with_owner; Payout.op_fee_limit; Payout.op_build;
       Payout.op_sign; Payout.op_broadcast ].

#[global] Instance operation_eq_dec : EqDecision Payout.operation.
Proof. solve_decision. Defined.

(** How often an operation was performed. *)
Definition times (op : Payout.operation) (ops : list Payout.operation) : nat :=
  length (filter (fun o => o = op) ops).

(** The line logged when a payout starts. *)
Definition erc20_info_line {decimal : Payout.DecimalLib} (to_address : string)
    (amount : Payout.Decimal) (w : Payout.Env) : Payout.level * string :=
  (Payout.INFO,
   "[" +:+ Payout.now_at w (Payout.readings w)
   +:+ "] Initiating ERC20 payout to " +:+ to_address +:+ " for "
   +:+ Payout.Decimal_str amount).

Definition trc20_info_line {decimal : Payout.DecimalLib} (to_address : string)
    (amount : Payout.Decimal) (w : Payout.Env) : Payout.level * string :=
  (Payout.INFO,
   "[" +:+ Payout.now_at w (Payout.readings w)
   +:+ "] Initiating TRC20 payout to " +:+ to_address +:+ " for "
   +:+ Payout.Decimal_str amount).

(** The environment in which the [try] of a payout starts: the clock was
    read once and the "Initiating" line was logged. *)
Definition entered (line : Payout.level * string) (w : Payout.Env)
  : Payout.Env :=
  {| Payout.getenv := Payout.getenv w; Payout.now_at := Payout.now_at w;
     Payout.readings := S (Payout.readings w);
     Payout.journal := Payout.journal w ++ [line];
     Payout.performed := Payout.performed w |}.

(** * Properties

    ** Decimal text *)

Lemma length_app_string (s t : string) :
  String.length (s +:+ t) = String.length s + String.length t.
Proof. induction s as [|c s IH]; simpl; [reflexivity | now rewrite IH]. Qed.

Lemma decimal_from_app (s t : string) (acc : N) :
  decimal_from acc (s +:+ t) =
  match decimal_from acc s with
  | Some v => decimal_from v t
  | None => None
  end.
Proof.
  revert acc; induction s as [|c s IH]; intros acc; simpl; [reflexivity|].
  destruct (digit_value c); [apply IH | reflexivity].
Qed.

Lemma decimal_from_digit (d acc : N) :
  (d < 10)%N -> decimal_from acc (digit d) = Some (10 * acc + d)%N.
Proof.
  intros Hd. unfold digit, decimal_from, digit_value.
  rewrite N_ascii_embedding by lia.
  replace ((48 <=? 48 + d)%N && (48 + d <=? 57)%N) with true.
  - f_equal; lia.
  - symmetry; apply andb_true_iff; split; apply N.leb_le; lia.
Qed.

Lemma decimal_from_zeros (k : nat) (s : string) :
  decimal_from 0 (zeros k +:+ s) = decimal_from 0 s.
Proof. induction k as [|k IH]; simpl; [reflexivity | exact IH]. Qed.

Lemma length_zeros (k : nat) : String.length (zeros k) = k.
Proof. induction k as [|k IH]; simpl; [reflexivity | now rewrite IH]. Qed.

Lemma str_digits_S (fuel : nat) (n : N) :
  str_digits (S fuel) n =
  if (n <? 10)%N then digit n
  else str_digits fuel (n / 10) +:+ digit (n mod 10).
Proof. reflexivity. Qed.

Lemma str_digits_value (fuel : nat) : forall n : N,
  (n < 2 ^ N.of_nat (S fuel))%N ->
  decimal_from 0 (str_digits (S fuel) n) = Some n.
Proof.
  induction fuel as [|fuel IH]; intros n Hn.
  - assert (Hlt : (n < 10)%N) by (change (2 ^ N.of_nat 1)%N with 2%N in Hn; lia).
    rewrite str_digits_S. rewrite (proj2 (N.ltb_lt _ _) Hlt), decimal_from_digit by exact Hlt. f_equal; lia.
  - rewrite str_digits_S.
    destruct (n <? 10)%N eqn:E.
    + apply N.ltb_lt in E. rewrite decimal_from_digit by exact E. f_equal; lia.
    + apply N.ltb_ge in E.
      rewrite decimal_from_app, IH.
      * assert (Hd : (n mod 10 < 10)%N) by (apply N.mod_lt; lia).
        rewrite decimal_from_digit by exact Hd.
        f_equal. pose proof (N.div_mod n 10). lia.
      * replace (N.of_nat (S (S fuel))) with (N.succ (N.of_nat (S fuel))) in Hn by lia.
        rewrite N.pow_succ_r' in Hn.
        apply N.Div0.div_lt_upper_bound. lia.
Qed.

Lemma str_N_value (n : N) : decimal_from 0 (str_N n) = Some n.
Proof.
  unfold str_N. apply str_digits_value.
  destruct n as [|p]; [reflexivity|].
  rewrite Nat2N.inj_succ, N2Nat.id.
  apply N.log2_spec. lia.
Qed.

Lemma str_digits_length (fuel : nat) : forall (n : N) (k : nat),
  (n < 10 ^ N.of_nat (S k))%N -> String.length (str_digits fuel n) <= S k.
Proof.
  induction fuel as [|fuel IH]; intros n k Hn; [simpl; lia|].
  rewrite str_digits_S.
  destruct (n <? 10)%N eqn:E; [simpl; lia|].
  apply N.ltb_ge in E.
  destruct k as [|k]; [change (10 ^ N.of_nat 1)%N with 10%N in Hn; lia|].
  rewrite length_app_string. simpl.
  assert (String.length (str_digits fuel (n / 10)) <= S k); [|lia].
  apply IH.
  replace (N.of_nat (S (S k))) with (N.succ (N.of_nat (S k))) in Hn by lia.
  rewrite N.pow_succ_r' in Hn.
  apply N.Div0.div_lt_upper_bound. lia.
Qed.

Lemma str_digits_nonempty (fuel : nat) (n : N) :
  str_digits (S fuel) n <> "".
Proof.
  rewrite str_digits_S. destruct (n <? 10)%N; [discriminate|].
  destruct (str_digits fuel (n / 10)); discriminate.
Qed.

Lemma zero_fill_length (width : nat) (s : string) :
  String.length s <= width -> String.length (zero_fill width s) = width.
Proof.
  intros H. unfold zero_fill. rewrite length_app_string, length_zeros. lia.
Qed.

Lemma str_N_length (n : N) (k : nat) :
  (n < 10 ^ N.of_nat (S k))%N -> String.length (str_N n) <= S k.
Proof. apply str_digits_length. Qed.

Lemma format_012_in_range (amount : Z) :
  (0 <= amount < 10 ^ 12)%Z -> twelve_digit_amount amount (format_012 amount).
Proof.
  intros [Hlo Hhi]. unfold format_012.
  destruct (amount <? 0)%Z eqn:E; [apply Z.ltb_lt in E; lia|].
  assert (Hlen : String.length (zero_fill 12 (str_N (Z.to_N amount))) = 12).
  { apply zero_fill_length, (str_N_length _ 11).
    change (10 ^ N.of_nat 12)%N with (Z.to_N (10 ^ 12)). lia. }
  split; [exact Hlen|]. split; [exact Hlo|].
  unfold decimal_value.
  destruct (zero_fill 12 (str_N (Z.to_N amount))) eqn:F; [discriminate Hlen|].
  rewrite <- F. unfold zero_fill.
  now rewrite decimal_from_zeros, str_N_value.
Qed.

(** ** The request *)

Lemma request_mti now pan expiry cvv amount :
  Iso8583.get_mti (authorization_request now pan expiry cvv amount) = "0100".
Proof. reflexivity. Qed.

Lemma request_dom now pan expiry cvv amount :
  dom (Iso8583.bits (authorization_request now pan expiry cvv amount))
  = request_fields.
Proof.
  unfold authorization_request, Iso8583.set_bit, Iso8583.set_mti, Iso8583.new,
    request_fields; simpl.
  rewrite !dom_insert_L, dom_empty_L. set_solver.
Qed.

Lemma request_bit3 now pan expiry cvv amount :
  Iso8583.get_bit 3 (authorization_request now pan expiry cvv amount) = Some "000000".
Proof. reflexivity. Qed.

Lemma request_bit4 now pan expiry cvv amount :
  Iso8583.get_bit 4 (authorization_request now pan expiry cvv amount) = Some (format_012 amount).
Proof. reflexivity. Qed.

(** ** The monad *)

Lemma bind_inr {A B} (c : M A) (k : A -> M B) (w w' : World) (a : A) :
  c w = (inr a, w') -> bind c k w = k a w'.
Proof. intros H. unfold bind. now rewrite H. Qed.

Lemma bind_inl {A B} (c : M A) (k : A -> M B) (w w' : World) (e : exn) :
  c w = (inl e, w') -> bind c k w = (inl e, w').
Proof. intros H. unfold bind. now rewrite H. Qed.

Lemma try_except_inr {A} (c : M A) (h : exn -> M A) (w w' : World) (a : A) :
  c w = (inr a, w') -> try_except c h w = (inr a, w').
Proof. intros H. unfold try_except. now rewrite H. Qed.

Lemma try_except_inl {A} (c : M A) (h : exn -> M A) (w w' : World) (e : exn) :
  c w = (inl e, w') -> try_except c h w = h e w'.
Proof. intros H. unfold try_except. now rewrite H. Qed.

(** ** Reading from the socket *)

Lemma set_incoming_twice (i j : list arrival) (w : World) :
  set_incoming j (set_incoming i w) = set_incoming j w.
Proof. reflexivity. Qed.

Lemma recv_from_length (n : nat) (arrivals : list arrival) :
  forall chunk rest,
    recv_from n arrivals = (inr chunk, rest) -> length chunk <= n.
Proof.
  induction arrivals as [|[bs|e] arrivals IH]; intros chunk rest H; simpl in H.
  - injection H as <- <-. simpl. lia.
  - destruct bs as [|b bs]; [eauto|].
    injection H as <- _. rewrite length_take. lia.
  - discriminate.
Qed.

Lemma recv_length (n : nat) (w w' : World) (chunk : bytes) :
  recv n w = (inr chunk, w') -> length chunk <= n.
Proof.
  unfold recv. destruct (recv_from n (incoming w)) as [r rest] eqn:E.
  intros H. injection H as -> _. eauto using recv_from_length.
Qed.

(** Reading from a peer that only delivers data. *)
Lemma recv_closed (n : nat) (w : World) :
  incoming w = [] -> recv n w = (inr [], set_incoming [] w).
Proof. intros H. unfold recv. now rewrite H. Qed.

Lemma recv_skip (n : nat) (w : World) (rest : list arrival) :
  incoming w = Data [] :: rest -> recv n w = recv n (set_incoming rest w).
Proof. intros H. unfold recv. now rewrite H. Qed.

Lemma recv_whole (n : nat) (w : World) (b : byte) (bs : bytes)
    (rest : list arrival) :
  incoming w = Data (b :: bs) :: rest -> length (b :: bs) <= n ->
  recv n w = (inr (b :: bs), set_incoming rest w).
Proof.
  intros H Hn. unfold recv. rewrite H.
  cbn [recv_from]. rewrite take_ge, drop_ge by exact Hn. reflexivity.
Qed.

(** ** The body loop *)

Lemma recv_body_S (fuel length : nat) (response : bytes) :
  recv_body (S fuel) length response =
  if List.length response <? length then
    let! chunk := recv (length - List.length response) in
    match chunk with
    | [] => raise (Exception "Socket connection broken")
    | _ => recv_body fuel length (response ++ chunk)
    end
  else ret response.
Proof. reflexivity. Qed.

Lemma recv_body_done (fuel length : nat) (response : bytes) (w : World) :
  length <= List.length response ->
  recv_body fuel length response w = (inr response, w).
Proof.
  intros H. apply Nat.ltb_ge in H.
  destruct fuel; simpl; now rewrite H.
Qed.

(** Fuel: [length - len(response)] rounds are enough, more change nothing. *)
Lemma recv_body_fuel (fuel : nat) : forall (extra length : nat)
    (response : bytes) (w : World),
  length - List.length response <= fuel ->
  recv_body (fuel + extra) length response w = recv_body fuel length response w.
Proof.
  induction fuel as [|fuel IH]; intros extra len response w Hfuel.
  - rewrite !recv_body_done by lia. reflexivity.
  - change (S fuel + extra) with (S (fuel + extra)). rewrite !recv_body_S.
    destruct (List.length response <? len) eqn:E; [|reflexivity].
    apply Nat.ltb_lt in E. unfold bind.
    destruct (recv (len - List.length response) w) as [[e|chunk] w'] eqn:R;
      [reflexivity|].
    destruct chunk as [|b chunk]; [reflexivity|].
    apply IH. rewrite length_app. simpl. lia.
Qed.

(** A body that is returned has the announced length. *)
Lemma recv_body_exact (fuel : nat) : forall (length : nat) (response : bytes)
    (w w' : World) (body : bytes),
  length - List.length response <= fuel ->
  List.length response <= length ->
  recv_body fuel length response w = (inr body, w') ->
  List.length body = length.
Proof.
  induction fuel as [|fuel IH]; intros len response w w' body Hfuel Hle H.
  - rewrite recv_body_done in H by lia. injection H as <- _. lia.
  - rewrite recv_body_S in H.
    destruct (List.length response <? len) eqn:E.
    + apply Nat.ltb_lt in E. unfold bind in H.
      destruct (recv (len - List.length response) w) as [[e|chunk] w1] eqn:R;
        [discriminate|].
      pose proof (recv_length _ _ _ _ R) as Hchunk.
      destruct chunk as [|b chunk]; [discriminate|].
      apply IH in H; [exact H| |]; rewrite length_app; simpl in *; lia.
    + apply Nat.ltb_ge in E. injection H as <- _. lia.
Qed.

(** The peer closes before the body is complete. *)
Lemma recv_body_broken (chunks : list bytes) : forall (fuel length : nat)
    (response : bytes) (w : World),
  incoming w = map Data chunks ->
  List.length response + List.length (concat chunks) < length ->
  length - List.length response <= fuel ->
  recv_body fuel length response w
  = (inl (Exception "Socket connection broken"), set_incoming [] w).
Proof.
  induction chunks as [|chunk chunks IH]; intros fuel len response w Hin Hshort Hfuel;
    (destruct fuel as [|fuel]; [simpl in Hshort; lia|]);
    rewrite recv_body_S;
    (replace (List.length response <? len) with true
       by (symmetry; apply Nat.ltb_lt; simpl in Hshort; lia)).
  - erewrite bind_inr by (apply recv_closed; exact Hin). reflexivity.
  - destruct chunk as [|b chunk].
    + unfold bind. rewrite (recv_skip _ _ _ Hin).
      specialize (IH (S fuel) len response (set_incoming (map Data chunks) w)
                    eq_refl Hshort Hfuel).
      rewrite recv_body_S in IH.
      replace (List.length response <? len) with true in IH
        by (symmetry; apply Nat.ltb_lt; simpl in Hshort; lia).
      exact IH.
    + simpl in Hshort. rewrite length_app in Hshort.
      erewrite bind_inr by (apply (recv_whole _ _ _ _ _ Hin); simpl; lia).
      cbv beta iota.
      rewrite IH with (fuel := fuel); [reflexivity|reflexivity| |];
        rewrite length_app; simpl; lia.
Qed.

(** ** The length prefix *)

Lemma struct_pack_H_fits (n : N) :
  (n <= 65535)%N ->
  exists hi lo, struct_pack_H n = inr [hi; lo]
                /\ struct_unpack_H [hi; lo] = inr n.
Proof.
  intros Hn. unfold struct_pack_H.
  rewrite (proj2 (N.leb_le _ _) Hn).
  destruct (Byte.of_N (n / 256)) as [hi|] eqn:Ehi.
  - destruct (Byte.of_N (n mod 256)) as [lo|] eqn:Elo.
    + exists hi, lo. split; [reflexivity|]. unfold struct_unpack_H.
      apply Byte.to_of_N in Ehi, Elo. rewrite Ehi, Elo.
      f_equal. pose proof (N.div_mod n 256). lia.
    + apply Byte.of_N_None_iff in Elo.
      pose proof (N.mod_lt n 256). lia.
  - apply Byte.of_N_None_iff in Ehi.
    assert (n / 256 < 256)%N by (apply N.Div0.div_lt_upper_bound; lia). lia.
Qed.

Lemma struct_pack_H_overflow (n : N) :
  (65535 < n)%N ->
  struct_pack_H n = inl (struct_error "'H' format requires 0 <= number <= 65535").
Proof.
  intros Hn. unfold struct_pack_H.
  now rewrite (proj2 (N.leb_gt _ _) Hn).
Qed.

(** The steps of [send_frame], one outcome at a time. *)
Lemma send_frame_run (host : string) (port : Z) (msg : bytes) (w : World) :
  send_frame host port msg w =
  match socket_error w with
  | Some e => (inl e, w)
  | None =>
      match connect_error w host port with
      | Some e => (inl e, set_timeout 10 (set_sock Created w))
      | None =>
          let w1 := set_sock Connected (set_timeout 10 (set_sock Created w)) in
          match struct_pack_H (N.of_nat (length msg)) with
          | inl e => (inl e, w1)
          | inr prefix => sendall (prefix ++ msg) w1
          end
      end
  end.
Proof.
  unfold send_frame, bind, socket_socket, settimeout, connect, lift, ret, raise.
  destruct (socket_error w); [reflexivity|]. cbn.
  destruct (connect_error w host port); [reflexivity|].
  destruct (struct_pack_H (N.of_nat (length msg))); reflexivity.
Qed.

Lemma sendall_wire (data : bytes) (w : World) :
  (exists k, wire (snd (sendall data w)) = wire w ++ take k data)
  /\ (fst (sendall data w) = inr tt ->
      wire (snd (sendall data w)) = wire w ++ data).
Proof.
  unfold sendall. destruct (send_error w) as [[k e]|]; simpl.
  - split; [now exists k | discriminate].
  - split; [|reflexivity]. exists (length data). now rewrite take_ge.
Qed.

Lemma send_frame_incoming (host : string) (port : Z) (msg : bytes) (w : World) :
  incoming (snd (send_frame host port msg w)) = incoming w.
Proof.
  rewrite send_frame_run. unfold sendall.
  destruct (socket_error w); [reflexivity|].
  destruct (connect_error w host port); [reflexivity|]. cbn zeta.
  destruct (struct_pack_H (N.of_nat (length msg))); [reflexivity|].
  cbn. destruct (send_error w) as [[k e]|]; reflexivity.
Qed.

(** ** The exchange, step by step *)

Section AuthorizeFacts.

Context {codec : Codec}.
Variables (host : string) (port : Z) (pan expiry cvv : string) (amount : Z).

Lemma exchange_run (w : World) :
  exchange host port pan expiry cvv amount w =
  match get_network_message
          (authorization_request (clock w) pan expiry cvv amount) with
  | inl e => (inl e, w)
  | inr msg =>
      match send_frame host port msg w with
      | (inl e, w1) => (inl e, w1)
      | (inr _, w1) =>
          match recv_frame w1 with
          | (inl e, w2) => (inl e, w2)
          | (inr response, w2) =>
              match set_network_message response with
              | inl e => (inl e, w2)
              | inr iso_response =>
                  (inr (authorization_result iso_response), w2)
              end
          end
      end
  end.
Proof.
  unfold exchange, bind, utcnow, lift, ret, raise.
  destruct (get_network_message _) as [e|msg]; [reflexivity|].
  destruct (send_frame host port msg w) as [[e|[]] w1]; [reflexivity|].
  destruct (recv_frame w1) as [[e|response] w2]; [reflexivity|].
  destruct (set_network_message response); reflexivity.
Qed.

Lemma handler_run (e : exn) (w : World) :
  on_exception e w
  = (inr (Failure false (str e) "96"),
     write_log "Error in ISO8583 communication" w).
Proof. reflexivity. Qed.

Lemma authorize_normalizes (w w' : World) (e : exn) :
  exchange host port pan expiry cvv amount w = (inl e, w') ->
  send_iso_authorization host port pan expiry cvv amount w
  = (inr (Failure false (str e) "96"),
     write_log "Error in ISO8583 communication" w').
Proof.
  intros H. unfold send_iso_authorization.
  now rewrite (try_except_inl _ _ _ _ _ H), handler_run.
Qed.

Lemma authorize_returns (w w' : World) (r : AuthorizationResult) :
  exchange host port pan expiry cvv amount w = (inr r, w') ->
  send_iso_authorization host port pan expiry cvv amount w = (inr r, w').
Proof. intros H. unfold send_iso_authorization. now apply try_except_inr. Qed.

(** Each step that can fail, and what the caller gets then. *)

Lemma encode_failure (w : World) (e : exn) :
  get_network_message (authorization_request (clock w) pan expiry cvv amount)
  = inl e ->
  fst (send_iso_authorization host port pan expiry cvv amount w)
  = inr (Failure false (str e) "96").
Proof.
  intros H. erewrite authorize_normalizes; [reflexivity|].
  rewrite exchange_run, H. reflexivity.
Qed.

Lemma send_failure (w w1 : World) (msg : bytes) (e : exn) :
  get_network_message (authorization_request (clock w) pan expiry cvv amount)
  = inr msg ->
  send_frame host port msg w = (inl e, w1) ->
  fst (send_iso_authorization host port pan expiry cvv amount w)
  = inr (Failure false (str e) "96").
Proof.
  intros H1 H2. erewrite authorize_normalizes; [reflexivity|].
  rewrite exchange_run, H1, H2. reflexivity.
Qed.

Lemma receive_failure (w w1 w2 : World) (msg : bytes) (e : exn) :
  get_network_message (authorization_request (clock w) pan expiry cvv amount)
  = inr msg ->
  send_frame host port msg w = (inr tt, w1) ->
  recv_frame w1 = (inl e, w2) ->
  fst (send_iso_authorization host port pan expiry cvv amount w)
  = inr (Failure false (str e) "96").
Proof.
  intros H1 H2 H3. erewrite authorize_normalizes; [reflexivity|].
  rewrite exchange_run, H1, H2, H3. reflexivity.
Qed.

Lemma decode_failure (w w1 w2 : World) (msg response : bytes) (e : exn) :
  get_network_message (authorization_request (clock w) pan expiry cvv amount)
  = inr msg ->
  send_frame host port msg w = (inr tt, w1) ->
  recv_frame w1 = (inr response, w2) ->
  set_network_message response = inl e ->
  fst (send_iso_authorization host port pan expiry cvv amount w)
  = inr (Failure false (str e) "96").
Proof.
  intros H1 H2 H3 H4. erewrite authorize_normalizes; [reflexivity|].
  rewrite exchange_run, H1, H2, H3, H4. reflexivity.
Qed.

End AuthorizeFacts.

(** Failures of the socket inside [send_frame] and [recv_frame]. *)

Lemma connect_raises (host : string) (port : Z) (msg : bytes) (w : World)
    (e : exn) :
  socket_error w = None -> connect_error w host port = Some e ->
  fst (send_frame host port msg w) = inl e.
Proof. intros H1 H2. rewrite send_frame_run, H1, H2. reflexivity. Qed.

Lemma write_raises (host : string) (port : Z) (msg : bytes) (w : World)
    (k : nat) (e : exn) :
  socket_error w = None -> connect_error w host port = None ->
  (N.of_nat (length msg) <= 65535)%N -> send_error w = Some (k, e) ->
  fst (send_frame host port msg w) = inl e.
Proof.
  intros H1 H2 H3 H4. rewrite send_frame_run, H1, H2. cbn zeta.
  destruct (struct_pack_H_fits _ H3) as (hi & lo & -> & _).
  unfold sendall. cbn. rewrite H4. reflexivity.
Qed.

Lemma read_raises (w : World) (e : exn) (rest : list arrival) :
  incoming w = Fault e :: rest -> fst (recv_frame w) = inl e.
Proof.
  intros H. unfold recv_frame, bind, recv. rewrite H. reflexivity.
Qed.

(** ** The frame that is read back *)

Lemma recv_header (w : World) (hi lo : byte) (first : bytes)
    (rest : list arrival) :
  incoming w = Data (hi :: lo :: first) :: rest ->
  recv 2 w
  = (inr [hi; lo],
     set_incoming match first with
                  | [] => rest
                  | _ => Data first :: rest
                  end w).
Proof. intros H. unfold recv. rewrite H. destruct first; reflexivity. Qed.

Lemma recv_frame_one_byte (w : World) (b : byte) (rest : list arrival) :
  incoming w = Data [b] :: rest ->
  recv_frame w
  = (inl (Exception "Incomplete 2-byte header received"), set_incoming rest w).
Proof. intros H. unfold recv_frame, bind, recv. rewrite H. reflexivity. Qed.

Lemma recv_frame_no_byte (w : World) :
  incoming w = [] ->
  recv_frame w
  = (inl (Exception "Incomplete 2-byte header received"), set_incoming [] w).
Proof. intros H. unfold recv_frame, bind, recv. rewrite H. reflexivity. Qed.

Lemma recv_frame_broken (w : World) (hi lo : byte) (first : bytes)
    (chunks : list bytes) (len : N) :
  incoming w = Data (hi :: lo :: first) :: map Data chunks ->
  struct_unpack_H [hi; lo] = inr len ->
  length (first ++ concat chunks) < N.to_nat len ->
  recv_frame w
  = (inl (Exception "Socket connection broken"), set_incoming [] w).
Proof.
  intros Hin Hlen Hshort. unfold recv_frame.
  rewrite (bind_inr _ _ _ _ _ (recv_header _ _ _ _ _ Hin)).
  cbv beta. change (length [hi; lo] <? 2) with false. cbv iota.
  rewrite Hlen. unfold lift.
  rewrite (bind_inr _ _ _ _ len eq_refl).
  set (w1 := set_incoming _ w).
  assert (Hbody : recv_body (N.to_nat len) (N.to_nat len) [] w1
                  = (inl (Exception "Socket connection broken"),
                     set_incoming [] w1)).
  { destruct first as [|b first].
    - apply (recv_body_broken chunks); [reflexivity|exact Hshort|simpl; lia].
    - apply (recv_body_broken ((b :: first) :: chunks));
        [reflexivity| |simpl; lia].
      simpl in *. exact Hshort. }
  rewrite (bind_inl _ _ _ _ _ Hbody). reflexivity.
Qed.

(** ** The socket along the exchange *)

Lemma recv_sock (n : nat) (w : World) : sock (snd (recv n w)) = sock w.
Proof. unfold recv. destruct (recv_from n (incoming w)). reflexivity. Qed.

Lemma recv_body_sock (fuel : nat) : forall (length : nat) (response : bytes)
    (w : World),
  sock (snd (recv_body fuel length response w)) = sock w.
Proof.
  induction fuel as [|fuel IH]; intros len response w.
  - simpl. destruct (List.length response <? len); reflexivity.
  - rewrite recv_body_S.
    destruct (List.length response <? len); [|reflexivity].
    unfold bind. pose proof (recv_sock (len - List.length response) w) as Hr.
    destruct (recv (len - List.length response) w) as [[e|chunk] w1];
      [exact Hr|].
    destruct chunk as [|b chunk]; [exact Hr|].
    rewrite IH. exact Hr.
Qed.

(** [recv_frame] closes the socket when it returns and leaves it as it was
    when it raises. *)
Lemma recv_frame_sock (w : World) :
  match recv_frame w with
  | (inr _, w') => sock w' = Closed
  | (inl _, w') => sock w' = sock w
  end.
Proof.
  unfold recv_frame, bind.
  pose proof (recv_sock 2 w) as H2.
  destruct (recv 2 w) as [[e|raw_len] w1]; [exact H2|].
  destruct (length raw_len <? 2); [exact H2|].
  destruct (struct_unpack_H raw_len) as [e|len]; [exact H2|].
  cbn [lift ret].
  pose proof (recv_body_sock (N.to_nat len) (N.to_nat len) [] w1) as Hb.
  destruct (recv_body (N.to_nat len) (N.to_nat len) [] w1) as [[e|body] w2];
    [simpl in *; congruence|reflexivity].
Qed.

Lemma send_frame_connected (host : string) (port : Z) (msg : bytes)
    (w w1 : World) :
  send_frame host port msg w = (inr tt, w1) -> sock w1 = Connected.
Proof.
  rewrite send_frame_run.
  destruct (socket_error w); [discriminate|].
  destruct (connect_error w host port); [discriminate|]. cbn zeta.
  destruct (struct_pack_H (N.of_nat (length msg))); [discriminate|].
  unfold sendall. cbn.
  destruct (send_error w) as [[k e]|]; [discriminate|].
  intros H. injection H as <-. reflexivity.
Qed.

(** A receive that raises leaves the connected socket open when the function
    returns. *)
Lemma failed_receive_leaves_socket_open {codec : Codec} (host : string)
    (port : Z) (pan expiry cvv : string) (amount : Z) (w w1 w2 : World)
    (msg : bytes) (e : exn) :
  get_network_message (authorization_request (clock w) pan expiry cvv amount)
  = inr msg ->
  send_frame host port msg w = (inr tt, w1) ->
  recv_frame w1 = (inl e, w2) ->
  sock (snd (send_iso_authorization host port pan expiry cvv amount w))
  = Connected.
Proof.
  intros H1 H2 H3.
  erewrite authorize_normalizes
    by (rewrite exchange_run, H1, H2, H3; reflexivity).
  pose proof (recv_frame_sock w1) as Hs. rewrite H3 in Hs.
  simpl. rewrite Hs. eauto using send_frame_connected.
Qed.

(** A host that closes before the announced body is complete: the receive
    step raises, whatever the split of the bytes into arrivals. *)
Lemma recv_frame_short (chunks : list bytes) : forall (w : World)
    (hi lo : byte) (body : bytes) (len : N),
  incoming w = map Data chunks ->
  concat chunks = hi :: lo :: body ->
  struct_unpack_H [hi; lo] = inr len ->
  length body < N.to_nat len ->
  exists e w',
    recv_frame w = (inl e, w')
    /\ (e = Exception "Socket connection broken"
        \/ e = Exception "Incomplete 2-byte header received")
    /\ forall first rest,
         chunks = (hi :: lo :: first) :: rest ->
         e = Exception "Socket connection broken".
Proof.
  induction chunks as [|chunk chunks IH]; intros w hi lo body len Hin Hcat Hlen Hshort;
    [discriminate|].
  destruct chunk as [|b1 [|b2 first]].
  - destruct (IH (set_incoming (map Data chunks) w) hi lo body len eq_refl
                Hcat Hlen Hshort) as (e & w' & Hrun & Hkind & _).
    exists e, w'. split; [|split; [exact Hkind | intros ? ? [=]]].
    rewrite <- Hrun. unfold recv_frame, bind.
    now rewrite (recv_skip _ _ _ Hin).
  - eexists _, _. split; [apply (recv_frame_one_byte _ _ _ Hin)|].
    split; [now right | intros ? ? [=]].
  - simpl in Hcat. injection Hcat as -> -> Hbody.
    eexists _, _. split; [|split; [now left | reflexivity]].
    apply (recv_frame_broken _ _ _ _ _ _ Hin Hlen). now rewrite Hbody.
Qed.

(** ** The codec of the specification: decoding what was encoded *)

Module CodecFacts.

Import FieldDictionary MessageCodec.

(** *** Text and bytes *)

Lemma bytes_of_string_app (s t : string) :
  String.list_byte_of_string (s +:+ t)
  = String.list_byte_of_string s ++ String.list_byte_of_string t.
Proof.
  unfold String.list_byte_of_string.
  induction s as [|c s IH]; simpl; [reflexivity | now rewrite IH].
Qed.

Lemma bytes_of_string_length (s : string) :
  length (String.list_byte_of_string s) = String.length s.
Proof.
  unfold String.list_byte_of_string.
  induction s as [|c s IH]; simpl; [reflexivity | now rewrite IH].
Qed.

Lemma append_empty_r (s : string) : s +:+ "" = s.
Proof.
  induction s as [|c s IH]; [reflexivity|].
  change (String c (s +:+ "") = String c s). now rewrite IH.
Qed.

Lemma read_app (b tail : bytes) :
  read (length b) (b ++ tail) = inr (b, tail).
Proof.
  unfold read. rewrite length_app.
  replace (length b + length tail <? length b) with false
    by (symmetry; apply Nat.ltb_ge; lia).
  now rewrite take_app_length, drop_app_length.
Qed.

Lemma read_text (s : string) (tail : bytes) :
  read (String.length s) (String.list_byte_of_string s ++ tail)
  = inr (String.list_byte_of_string s, tail).
Proof. rewrite <- bytes_of_string_length. apply read_app. Qed.

(** *** One field *)

Lemma length_prefix_value (width len : nat) :
  1 <= width -> len < 10 ^ width ->
  String.length (str_N (N.of_nat len)) <= width
  /\ String.length (zero_fill width (str_N (N.of_nat len))) = width
  /\ decimal_value (zero_fill width (str_N (N.of_nat len)))
     = Some (N.of_nat len).
Proof.
  intros Hw Hlen.
  assert (Hshort : String.length (str_N (N.of_nat len)) <= width).
  { destruct width as [|k]; [lia|]. apply str_N_length.
    change 10%N with (N.of_nat 10). rewrite <- Nat2N.inj_pow. lia. }
  pose proof (zero_fill_length _ _ Hshort) as Hfill.
  split; [exact Hshort|]. split; [exact Hfill|].
  unfold decimal_value.
  destruct (zero_fill width (str_N (N.of_nat len))) eqn:E;
    [simpl in Hfill; lia|].
  rewrite <- E. unfold zero_fill.
  now rewrite decimal_from_zeros, str_N_value.
Qed.

Lemma field_roundtrip (s : FieldSpec) (v : string) :
  fits s v = true ->
  exists b, encode_field s v = inr b
            /\ forall tail, decode_field s (b ++ tail) = inr (v, tail).
Proof.
  unfold fits. rewrite !andb_true_iff. intros [[Hclass Hmax] Hrule].
  unfold encode_field, decode_field.
  rewrite Hclass. cbn [negb].
  apply Nat.leb_le in Hmax.
  rewrite (proj2 (Nat.ltb_ge _ _) Hmax).
  assert (Hvar : forall r, 1 <= prefix_width r ->
             String.length v < 10 ^ prefix_width r ->
             exists b,
               (if prefix_width r <? String.length (str_N (N.of_nat (String.length v)))
                then inl (EncodingError "length rule")
                else inr (String.list_byte_of_string
                            (zero_fill (prefix_width r)
                               (str_N (N.of_nat (String.length v))) +:+ v)))
               = inr b
               /\ forall tail,
                    (try! (p, rest) := read (prefix_width r) (b ++ tail) in
                     match decimal_value (String.string_of_list_byte p) with
                     | None => inl MalformedField
                     | Some len =>
                         try! (v0, rest') := read (N.to_nat len) rest in
                         inr (String.string_of_list_byte v0, rest')
                     end) = inr (v, tail)).
  { intros r Hw Hlen.
    destruct (length_prefix_value _ _ Hw Hlen) as (Hshort & Hfill & Hval).
    rewrite (proj2 (Nat.ltb_ge _ _) Hshort).
    eexists; split; [reflexivity|]. intros tail.
    rewrite bytes_of_string_app, <- app_assoc.
    rewrite <- Hfill at 1. rewrite read_text. cbn [bind_result].
    rewrite String.string_of_list_byte_of_string, Hval, Nat2N.id, read_text.
    cbn [bind_result]. now rewrite String.string_of_list_byte_of_string. }
  destruct (rule s) as [n| |] eqn:Er.
  - apply Nat.eqb_eq in Hrule. subst n.
    exists (String.list_byte_of_string v). split.
    + unfold zero_fill. rewrite Nat.sub_diag. cbn [spaces zeros String.append].
      rewrite append_empty_r. now destruct (field_kind s).
    + intros tail. rewrite read_text. cbn [bind_result].
      now rewrite String.string_of_list_byte_of_string.
  - apply Nat.ltb_lt in Hrule. apply (Hvar variableLVAR); [simpl; lia|exact Hrule].
  - apply Nat.ltb_lt in Hrule. apply (Hvar variableLLVAR); [simpl; lia|exact Hrule].
Qed.

(** *** The bitmap *)

Lemma byte_bits_roundtrip (b0 b1 b2 b3 b4 b5 b6 b7 : bool) :
  byte_to_bits (Byte.of_bits (b7, (b6, (b5, (b4, (b3, (b2, (b1, b0))))))))
  = [b0; b1; b2; b3; b4; b5; b6; b7].
Proof. unfold byte_to_bits. now rewrite Byte.to_bits_of_bits. Qed.

Lemma bits_roundtrip (n : nat) : forall bits : list bool,
  length bits = 8 * n ->
  bytes_to_bits (bits_to_bytes bits) = bits
  /\ length (bits_to_bytes bits) = n.
Proof.
  induction n as [|n IH]; intros bits Hlen.
  - destruct bits; [split; reflexivity | discriminate].
  - do 8 (destruct bits as [|? bits]; [simpl in Hlen; lia|]).
    destruct (IH bits) as [Hbits Hbytes]; [simpl in Hlen; lia|].
    cbn [bits_to_bytes]. unfold bytes_to_bits in *. cbn [flat_map length].
    rewrite byte_bits_roundtrip, Hbits, Hbytes. split; reflexivity.
Qed.

Lemma bitmap_roundtrip (fields : gmap nat string) :
  bytes_to_bits (bitmap fields) = map (present fields) (seq 1 64)
  /\ length (bitmap fields) = 8.
Proof. apply bits_roundtrip. now rewrite length_map, length_seq. Qed.

Lemma bit_set_present (fields : gmap nat string) (k : nat) :
  2 <= k <= 64 ->
  bit_set (map (present fields) (seq 1 64)) k
  = bool_decide (is_Some (fields !! k)).
Proof.
  intros Hk. unfold bit_set.
  rewrite (nth_indep _ false (present fields 0))
    by (rewrite length_map, length_seq; lia).
  rewrite map_nth, seq_nth by lia.
  replace (1 + (k - 1)) with k by lia.
  unfold present. destruct (Nat.eqb_spec k 1); [lia|reflexivity].
Qed.

(** *** All the fields *)

Lemma find_number (k : nat) (s : FieldSpec) :
  find k = Some s -> number s = k /\ 2 <= k <= 64.
Proof.
  unfold find. intros H. apply find_some in H as [Hin Heq].
  apply Nat.eqb_eq in Heq. split; [exact Heq|]. subst k.
  simpl in Hin. intuition (subst; simpl; lia).
Qed.

Section Fields.

Variable fields : gmap nat string.
Hypothesis fields_fit : forall k v,
  fields !! k = Some v -> exists s, find k = Some s /\ fits s v = true.

Lemma fields_roundtrip (bits : list bool) (ks : list nat) :
  (forall k, In k ks ->
             bit_set bits k = bool_decide (is_Some (fields !! k))) ->
  exists body,
    encode_fields ks fields = inr body
    /\ forall tail acc,
         decode_fields ks bits (body ++ tail) acc
         = inr (foldl (store_present fields) acc ks).
Proof.
  induction ks as [|k ks IH]; intros Hbits.
  - exists []. split; reflexivity.
  - destruct IH as (rest & Hrest & Hdec);
      [intros j Hj; apply Hbits; now right|].
    pose proof (Hbits k (or_introl eq_refl)) as Hk.
    cbn [encode_fields decode_fields foldl]. unfold store_present at 2.
    rewrite Hk. destruct (fields !! k) as [v|] eqn:Ev.
    + destruct (fields_fit _ _ Ev) as (s & Hs & Hfit).
      destruct (field_roundtrip _ _ Hfit) as (b & Hb & Hfield).
      unfold lookup. rewrite Hs, Hrest. cbn [bind_result]. rewrite Hb.
      cbn [bind_result]. exists (b ++ rest). split; [reflexivity|].
      intros tail acc.
      rewrite bool_decide_true by eauto.
      rewrite <- app_assoc, Hfield. cbn [bind_result]. apply Hdec.
    + exists rest. split; [exact Hrest|]. intros tail acc.
      rewrite bool_decide_false by (intros [? ?]; discriminate).
      apply Hdec.
Qed.

Lemma store_present_lookup (ks : list nat) : forall acc j,
  foldl (store_present fields) acc ks !! j
  = match fields !! j with
    | Some v => if decide (j ∈ ks) then Some v else acc !! j
    | None => acc !! j
    end.
Proof.
  induction ks as [|k ks IH]; intros acc j; cbn [foldl].
  - destruct (fields !! j); [|reflexivity].
    now rewrite decide_False by apply not_elem_of_nil.
  - rewrite IH. unfold store_present.
    destruct (fields !! j) as [v|] eqn:Ej.
    + destruct (decide (j ∈ ks)) as [Hin|Hnin].
      * now rewrite decide_True by (now right).
      * destruct (decide (j = k)) as [->|Hne].
        -- rewrite Ej, lookup_insert_eq.
           now rewrite decide_True by left.
        -- rewrite decide_False by (rewrite elem_of_cons; tauto).
           destruct (fields !! k); [|reflexivity].
           now rewrite lookup_insert_ne by congruence.
    + destruct (fields !! k) as [v|] eqn:Ek; [|reflexivity].
      rewrite lookup_insert_ne; [reflexivity|]. congruence.
Qed.

Lemma store_present_all :
  foldl (store_present fields) ∅ (seq 2 63) = fields.
Proof.
  apply map_eq. intros j. rewrite store_present_lookup, lookup_empty.
  destruct (fields !! j) as [v|] eqn:Ej; [|reflexivity].
  destruct (fields_fit _ _ Ej) as (s & Hs & _).
  apply find_number in Hs as [_ Hj].
  rewrite decide_True; [reflexivity|].
  apply list_elem_of_In, in_seq. lia.
Qed.

End Fields.

(** *** Validity, unfolded *)

Lemma valid_fields_fit (m : Iso8583.t) :
  forallb field_valid (map_to_list (Iso8583.bits m)) = true ->
  forall k v, Iso8583.bits m !! k = Some v ->
              exists s, find k = Some s /\ fits s v = true.
Proof.
  intros Hall k v Hkv. rewrite forallb_forall in Hall.
  specialize (Hall (k, v)). unfold field_valid in Hall. simpl in Hall.
  destruct (find k) as [s|].
  - exists s. split; [reflexivity|]. apply Hall.
    now apply list_elem_of_In, elem_of_map_to_list.
  - discriminate Hall. now apply list_elem_of_In, elem_of_map_to_list.
Qed.

Lemma valid_fields_known (m : Iso8583.t) :
  forallb field_valid (map_to_list (Iso8583.bits m)) = true ->
  forallb known (map fst (map_to_list (Iso8583.bits m))) = true.
Proof.
  intros Hall. rewrite forallb_forall in *. intros k Hk.
  apply in_map_iff in Hk as ([k' v] & <- & Hin).
  specialize (Hall _ Hin). unfold field_valid, known in *. simpl in *.
  now destruct (find k').
Qed.

End CodecFacts.

(** ** The codec of the specification on the cases it lists *)

(** Section 8.2: the request sets the bits of its twelve fields and no
    other: 0x72 0x24 0x44 0x80 0x20 0x80 0x80 0x00. *)
Example request_bitmap :
  MessageCodec.bitmap
    (Iso8583.bits (authorization_request sample_now "4111111111111111"
                     "2512" "123" 1000))
  = [x72; x24; x44; x80; x20; x80; x80; x00].
Proof. vm_compute. reflexivity. Qed.

(** Section 8.3: a PAN of twenty digits and an amount that is not numeric
    do not encode. *)
Example long_pan_rejected :
  MessageCodec.encode
    (authorization_request sample_now "41111111111111111111" "2512" "123" 1000)
  = inl (MessageCodec.EncodingError "length rule").
Proof. vm_compute. reflexivity. Qed.

Example text_amount_rejected :
  MessageCodec.encode
    (Iso8583.set_bit 4 "00000000ABCD"
       (authorization_request sample_now "4111111111111111" "2512" "123" 1000))
  = inl (MessageCodec.EncodingError "character class").
Proof. vm_compute. reflexivity. Qed.

(** A value shorter than its fixed field is filled by [encode] and comes
    back filled: such a message is outside the constraints of the
    dictionary. *)
Example short_value_is_filled :
  MessageCodec.valid (Iso8583.Build "0110" {[ 3 := "12" ]}) = false
  /\ (try! data := MessageCodec.encode (Iso8583.Build "0110" {[ 3 := "12" ]}) in
      MessageCodec.decode data)
     = inr (Iso8583.Build "0110" {[ 3 := "000012" ]}).
Proof. vm_compute. split; reflexivity. Qed.

(** Section 8.6: a refused connection is a failure record, not a raise. *)
Example refused_connection :
  fst (send_iso_authorization (codec := spec_codec) "203.0.113.7" 8583
         "4111111111111111" "2512" "123" 1000 host_refusing)
  = inr (Failure false "[Errno 111] Connection refused" "96").
Proof. vm_compute. reflexivity. Qed.

(** Section 8.7: a host that answers MTI "0110" with field 39 "00" and the
    amount echoed in field 4. *)
Example end_to_end_approval :
  fst (send_iso_authorization (codec := spec_codec) "203.0.113.7" 8583
         "4111111111111111" "2512" "123" 1000
         (host_delivering [Data (framed (wire_bytes approval))]))
  = inr (Answer true (Some "00") "0110" (Some "000000001000") None).
Proof. vm_compute. reflexivity. Qed.

(** The same host, on a completed exchange, finds the socket closed and the
    framed request on the wire. *)
Example end_to_end_socket :
  let w := snd (send_iso_authorization (codec := spec_codec) "203.0.113.7"
                  8583 "4111111111111111" "2512" "123" 1000
                  (host_delivering [Data (framed (wire_bytes approval))])) in
  sock w = Closed
  /\ wire w = framed (wire_bytes (authorization_request sample_now
                                    "4111111111111111" "2512" "123" 1000))
  /\ timeout w = Some 10%Z.
Proof. vm_compute. repeat split; reflexivity. Qed.

(** * Main results *)

(** C1. The function never raises: in every world and for every codec it
    returns a result dictionary.  Whenever a step of the exchange raises
    [e] (encoding the request; creating the socket, connecting, packing the
    length or writing; reading the header or the body; decoding the
    response), the result is the failure record with [approved] false,
    [field39] "96" and [str(e)] as [error], after one line was logged; a
    completed exchange returns its answer. *)
Theorem authorize_never_raises {codec : Codec} (host : string) (port : Z)
    (pan expiry cvv : string) (amount : Z) (w : World) :
  let run := send_iso_authorization host port pan expiry cvv amount w in
  let request := authorization_request (clock w) pan expiry cvv amount in
  (exists r, fst run = inr r)
  /\ (forall e w',
        exchange host port pan expiry cvv amount w = (inl e, w') ->
        run = (inr (Failure false (str e) "96"),
               write_log "Error in ISO8583 communication" w'))
  /\ (forall r w',
        exchange host port pan expiry cvv amount w = (inr r, w') ->
        run = (inr r, w'))
  /\ (forall e,
        get_network_message request = inl e ->
        fst run = inr (Failure false (str e) "96"))
  /\ (forall msg e w1,
        get_network_message request = inr msg ->
        send_frame host port msg w = (inl e, w1) ->
        fst run = inr (Failure false (str e) "96"))
  /\ (forall msg e w1 w2,
        get_network_message request = inr msg ->
        send_frame host port msg w = (inr tt, w1) ->
        recv_frame w1 = (inl e, w2) ->
        fst run = inr (Failure false (str e) "96"))
  /\ (forall msg response e w1 w2,
        get_network_message request = inr msg ->
        send_frame host port msg w = (inr tt, w1) ->
        recv_frame w1 = (inr response, w2) ->
        set_network_message response = inl e ->
        fst run = inr (Failure false (str e) "96")).
Proof.
  cbv zeta. repeat apply conj.
  - destruct (exchange host port pan expiry cvv amount w) as [[e|r] w'] eqn:E.
    + rewrite (authorize_normalizes _ _ _ _ _ _ _ _ _ E). eauto.
    + rewrite (authorize_returns _ _ _ _ _ _ _ _ _ E). eauto.
  - intros e w'. apply authorize_normalizes.
  - intros r w'. apply authorize_returns.
  - intros e. apply encode_failure.
  - intros msg e w1. apply send_failure.
  - intros msg e w1 w2. apply receive_failure.
  - intros msg response e w1 w2. apply decode_failure.
Qed.

(** C2, at the input that breaks it: the host accepts the connection and the
    request, then closes without answering.  The function returns the
    failure record and the socket is still connected: [sock.close()] is only
    reached when the whole frame was read. *)
Theorem socket_left_open_when_peer_closes :
  let run := send_iso_authorization (codec := spec_codec) "203.0.113.7" 8583
               "4111111111111111" "2512" "123" 1000 (host_delivering []) in
  fst run = inr (Failure false "Incomplete 2-byte header received" "96")
  /\ sock (snd run) = Connected.
Proof. vm_compute. split; reflexivity. Qed.

(** C3. When the frame that was read decodes, the function returns the
    answer read off the decoded response: [approved] is true exactly when
    field 39 is "00" (so "05" gives [approved] false with [field39] "05"),
    and [field39], [mti], [amount_received] and [transaction_time] are
    field 39, the MTI, field 4 and field 12 of the response. *)
Theorem answer_maps_response_code {codec : Codec} (host : string) (port : Z)
    (pan expiry cvv : string) (amount : Z) (w w1 w2 : World)
    (msg response : bytes) (iso_response : Iso8583.t) :
  get_network_message (authorization_request (clock w) pan expiry cvv amount)
  = inr msg ->
  send_frame host port msg w = (inr tt, w1) ->
  recv_frame w1 = (inr response, w2) ->
  set_network_message response = inr iso_response ->
  let r := authorization_result iso_response in
  send_iso_authorization host port pan expiry cvv amount w = (inr r, w2)
  /\ (approved r = true <-> Iso8583.get_bit 39 iso_response = Some "00")
  /\ (Iso8583.get_bit 39 iso_response = Some "05" ->
      approved r = false /\ field39 r = Some "05")
  /\ r = Answer (approved r) (Iso8583.get_bit 39 iso_response)
                (Iso8583.get_mti iso_response)
                (Iso8583.get_bit 4 iso_response)
                (Iso8583.get_bit 12 iso_response).
Proof.
  intros H1 H2 H3 H4 r. split; [|split; [|split]].
  - apply authorize_returns. rewrite exchange_run, H1, H2, H3, H4. reflexivity.
  - unfold r, authorization_result, approved, value_eqb.
    destruct (Iso8583.get_bit 39 iso_response) as [v|]; [|split; discriminate].
    rewrite String.eqb_eq. split; [now intros -> | now intros [= ->]].
  - intros H. unfold r, authorization_result. rewrite H. split; reflexivity.
  - reflexivity.
Qed.

Lemma answer_maps_response_code_witness :
  let w := host_delivering [Data (framed (wire_bytes refusal))] in
  let r := authorization_result refusal in
  send_iso_authorization (codec := spec_codec) "203.0.113.7" 8583
    "4111111111111111" "2512" "123" 1000 w
  = (inr r, snd (recv_frame (snd (send_frame "203.0.113.7" 8583
       (wire_bytes (authorization_request sample_now "4111111111111111"
                      "2512" "123" 1000)) w))))
  /\ (approved r = true <-> Iso8583.get_bit 39 refusal = Some "00")
  /\ (Iso8583.get_bit 39 refusal = Some "05" ->
      approved r = false /\ field39 r = Some "05")
  /\ r = Answer (approved r) (Iso8583.get_bit 39 refusal)
                (Iso8583.get_mti refusal) (Iso8583.get_bit 4 refusal)
                (Iso8583.get_bit 12 refusal).
Proof.
  intros w.
  pose (msg := wire_bytes (authorization_request sample_now
                 "4111111111111111" "2512" "123" 1000)).
  pose (w1 := snd (send_frame "203.0.113.7" 8583 msg w)).
  apply (answer_maps_response_code (codec := spec_codec) "203.0.113.7" 8583
           "4111111111111111" "2512" "123" 1000 w w1 (snd (recv_frame w1))
           msg (wire_bytes refusal) refusal);
    vm_compute; reflexivity.
Defined.

(** C4, as amended.  Every request has MTI "0100", populates exactly the
    fields 2, 3, 4, 7, 11, 14, 18, 22, 25, 35, 41 and 49, carries "000000"
    in field 3 and [f"{amount_cents:012}"] in field 4; for an amount from 0
    up to 999999999999 that text is the amount as twelve decimal digits,
    zeros first. *)
Theorem request_message_canonical (now : datetime) (pan expiry cvv : string)
    (amount : Z) :
  let iso := authorization_request now pan expiry cvv amount in
  Iso8583.get_mti iso = "0100"
  /\ dom (Iso8583.bits iso) = request_fields
  /\ Iso8583.get_bit 3 iso = Some "000000"
  /\ Iso8583.get_bit 4 iso = Some (format_012 amount)
  /\ ((0 <= amount < 10 ^ 12)%Z ->
      twelve_digit_amount amount (format_012 amount)).
Proof.
  cbv zeta. split; [apply request_mti|]. split; [apply request_dom|].
  split; [apply request_bit3|]. split; [apply request_bit4|].
  apply format_012_in_range.
Qed.

Lemma request_message_canonical_witness :
  Iso8583.get_bit 4 (authorization_request sample_now "4111111111111111"
                       "2512" "123" 1000) = Some "000000001000"
  /\ twelve_digit_amount 1000 "000000001000".
Proof.
  destruct (request_message_canonical sample_now "4111111111111111" "2512"
              "123" 1000) as (_ & _ & _ & H4 & H).
  split; [exact H4|]. apply H. lia.
Defined.

(** C4 as stated fails for an amount of thirteen digits: field 4 of the
    request is then thirteen characters long. *)
Lemma request_amount_beyond_twelve_digits :
  exists s,
    Iso8583.get_bit 4 (authorization_request sample_now "4111111111111111"
                         "2512" "123" (10 ^ 12)) = Some s
    /\ ~ twelve_digit_amount (10 ^ 12) s.
Proof.
  exists "1000000000000". split; [reflexivity|].
  intros [Hlen _]. discriminate Hlen.
Qed.

(** C5, at the input that breaks it: the host delivers the two header
    bytes, announcing 26 body bytes, in two arrivals, then two body bytes,
    and closes.  The single [recv(2)] returns the first header byte, the
    function reports an incomplete header and returns without reading the
    second arrival: it neither reads up to the close nor reports the broken
    body.  The same bytes with the header in one arrival are read to the
    close and reported as "Socket connection broken".  The defect is the
    single read of the header at line 38, which also rejects a complete
    frame whose header bytes arrive separately. *)
Theorem split_header_hides_short_body :
  let authorize := send_iso_authorization (codec := spec_codec)
                     "203.0.113.7" 8583 "4111111111111111" "2512" "123" 1000 in
  let split := host_delivering [Data [x00]; Data [x1a; x30; x31]] in
  let whole := host_delivering [Data [x00; x1a]; Data [x30; x31]] in
  struct_unpack_H [x00; x1a] = inr 26%N
  /\ fst (authorize split)
     = inr (Failure false "Incomplete 2-byte header received" "96")
  /\ incoming (snd (authorize split)) = [Data [x1a; x30; x31]]
  /\ fst (authorize whole)
     = inr (Failure false "Socket connection broken" "96")
  /\ incoming (snd (authorize whole)) = [].
Proof. vm_compute. repeat split; reflexivity. Qed.

(** What holds of a short body.  The host delivers bytes that begin with
    the two header bytes announcing [len] body bytes, and closes after
    fewer than [len] of them, however the bytes are split into arrivals.
    The receive step returns no body: it raises, and the caller gets the
    failure record with "96" and the message of the exception.  When the
    two header bytes come in one arrival the loop reads every arrival up to
    the close and the exception is "Socket connection broken". *)
Theorem short_body_is_failure {codec : Codec} (host : string) (port : Z)
    (pan expiry cvv : string) (amount : Z) (w w1 : World) (msg : bytes)
    (chunks : list bytes) (hi lo : byte) (body : bytes) (len : N) :
  get_network_message (authorization_request (clock w) pan expiry cvv amount)
  = inr msg ->
  send_frame host port msg w = (inr tt, w1) ->
  incoming w1 = map Data chunks ->
  concat chunks = hi :: lo :: body ->
  struct_unpack_H [hi; lo] = inr len ->
  length body < N.to_nat len ->
  exists e w2,
    recv_frame w1 = (inl e, w2)
    /\ fst (send_iso_authorization host port pan expiry cvv amount w)
       = inr (Failure false (str e) "96")
    /\ forall first rest,
         chunks = (hi :: lo :: first) :: rest ->
         e = Exception "Socket connection broken"
         /\ w2 = set_incoming [] w1.
Proof.
  intros H1 H2 Hin Hcat Hlen Hshort.
  destruct (recv_frame_short _ _ _ _ _ _ Hin Hcat Hlen Hshort)
    as (e & w2 & Hrun & _ & Hkind).
  exists e, w2. split; [exact Hrun|]. split.
  - apply (receive_failure _ _ _ _ _ _ _ _ _ _ _ H1 H2 Hrun).
  - intros first rest ->. split; [eauto|].
    simpl in Hcat. injection Hcat as Hbody.
    rewrite (recv_frame_broken w1 hi lo first rest len) in Hrun;
      [congruence | exact Hin | exact Hlen | now rewrite Hbody].
Qed.

Lemma short_body_is_failure_witness :
  let w := host_delivering [Data [x00; x1a; x30]; Data [x31; x31]] in
  let w1 := snd (send_frame "203.0.113.7" 8583
                   (wire_bytes (authorization_request sample_now
                      "4111111111111111" "2512" "123" 1000)) w) in
  exists e w2,
    recv_frame w1 = (inl e, w2)
    /\ fst (send_iso_authorization (codec := spec_codec) "203.0.113.7" 8583
              "4111111111111111" "2512" "123" 1000 w)
       = inr (Failure false (str e) "96")
    /\ forall first rest,
         [[x00; x1a; x30]; [x31; x31]] = (x00 :: x1a :: first) :: rest ->
         e = Exception "Socket connection broken"
         /\ w2 = set_incoming [] w1.
Proof.
  intros w w1.
  apply (short_body_is_failure (codec := spec_codec) "203.0.113.7" 8583
           "4111111111111111" "2512" "123" 1000 w w1
           (wire_bytes (authorization_request sample_now
              "4111111111111111" "2512" "123" 1000))
           [[x00; x1a; x30]; [x31; x31]] x00 x1a [x30; x31; x31] 26%N);
    [vm_compute; reflexivity | vm_compute; reflexivity | reflexivity
    | reflexivity | reflexivity | vm_compute; lia].
Defined.

(** C6, at the input that breaks it: the host delivers a whole approval
    frame, the first header byte in one arrival and the rest in the next.
    The single [recv(2)] returns one byte and the function reports an
    incomplete header, although the same bytes in one arrival are read and
    approved. *)
Theorem split_header_is_rejected :
  let authorize := send_iso_authorization (codec := spec_codec)
                     "203.0.113.7" 8583 "4111111111111111" "2512" "123" 1000 in
  framed (wire_bytes approval) = x00 :: x1a :: wire_bytes approval
  /\ fst (authorize (host_delivering
                       [Data [x00]; Data (x1a :: wire_bytes approval)]))
     = inr (Failure false "Incomplete 2-byte header received" "96")
  /\ fst (authorize (host_delivering
                       [Data (x00 :: x1a :: wire_bytes approval)]))
     = inr (Answer true (Some "00") "0110" (Some "000000001000") None).
Proof. vm_compute. repeat split; reflexivity. Qed.

(** C7. What [send_frame] writes is a prefix of the two length bytes
    followed by the message, all of it when the step returns, and the two
    bytes read back big-endian give the length of the message.  A message
    of more than 65535 bytes is not framed: nothing is written, the step
    raises ([struct.error] once the connection is up), and the caller gets
    the failure record. *)
Theorem frame_carries_length_prefix {codec : Codec} (host : string)
    (port : Z) (pan expiry cvv : string) (amount : Z) (msg : bytes)
    (w : World) :
  let n := N.of_nat (length msg) in
  let r := fst (send_frame host port msg w) in
  let w' := snd (send_frame host port msg w) in
  ((n <= 65535)%N ->
   exists hi lo,
     struct_unpack_H [hi; lo] = inr n
     /\ (exists k, wire w' = wire w ++ take k (hi :: lo :: msg))
     /\ (r = inr tt -> wire w' = wire w ++ hi :: lo :: msg))
  /\ ((65535 < n)%N ->
      wire w' = wire w
      /\ (exists e, r = inl e)
      /\ (socket_error w = None -> connect_error w host port = None ->
          r = inl (struct_error "'H' format requires 0 <= number <= 65535"))
      /\ (get_network_message
            (authorization_request (clock w) pan expiry cvv amount)
          = inr msg ->
          exists e,
            fst (send_iso_authorization host port pan expiry cvv amount w)
            = inr (Failure false e "96"))).
Proof.
  cbv zeta. split; intros Hn.
  - destruct (struct_pack_H_fits _ Hn) as (hi & lo & Hpack & Hunpack).
    exists hi, lo. split; [exact Hunpack|].
    rewrite send_frame_run.
    destruct (socket_error w);
      [split; [exists 0; simpl; now rewrite app_nil_r | discriminate]|].
    destruct (connect_error w host port);
      [split; [exists 0; simpl; now rewrite app_nil_r | discriminate]|].
    cbn zeta. rewrite Hpack.
    exact (sendall_wire ([hi; lo] ++ msg)
             (set_sock Connected (set_timeout 10 (set_sock Created w)))).
  - pose proof (struct_pack_H_overflow _ Hn) as Hpack.
    assert (Hrun : wire (snd (send_frame host port msg w)) = wire w
                   /\ (exists e, fst (send_frame host port msg w) = inl e)
                   /\ (socket_error w = None ->
                       connect_error w host port = None ->
                       fst (send_frame host port msg w)
                       = inl (struct_error
                                "'H' format requires 0 <= number <= 65535"))).
    { rewrite send_frame_run.
      destruct (socket_error w); [repeat split; eauto; discriminate|].
      destruct (connect_error w host port);
        [repeat split; eauto; discriminate|].
      cbn zeta. rewrite Hpack. repeat split; eauto. }
    destruct Hrun as (Hw & [e He] & Hs). repeat split; eauto.
    intros Hmsg. exists (str e).
    destruct (send_frame host port msg w) as [r w1] eqn:E. simpl in He. subst r.
    apply (send_failure _ _ _ _ _ _ _ _ _ _ Hmsg E).
Qed.

Lemma frame_carries_length_prefix_witness :
  (exists hi lo,
     struct_unpack_H [hi; lo] = inr 26%N
     /\ (exists k, wire (snd (send_frame "203.0.113.7" 8583
                                (wire_bytes approval) (host_delivering [])))
                   = [] ++ take k (hi :: lo :: wire_bytes approval))
     /\ (fst (send_frame "203.0.113.7" 8583 (wire_bytes approval)
                (host_delivering [])) = inr tt ->
         wire (snd (send_frame "203.0.113.7" 8583 (wire_bytes approval)
                      (host_delivering [])))
         = [] ++ hi :: lo :: wire_bytes approval))
  /\ exists e,
       fst (send_iso_authorization (codec := oversize_codec) "203.0.113.7"
              8583 "4111111111111111" "2512" "123" 1000 (host_delivering []))
       = inr (Failure false e "96").
Proof.
  split.
  - apply (frame_carries_length_prefix (codec := spec_codec) "203.0.113.7"
             8583 "4111111111111111" "2512" "123" 1000 (wire_bytes approval)
             (host_delivering [])).
    vm_compute. discriminate.
  - apply (frame_carries_length_prefix (codec := oversize_codec)
             "203.0.113.7" 8583 "4111111111111111" "2512" "123" 1000
             (repeat x00 (N.to_nat 65536)) (host_delivering []));
      [vm_compute; reflexivity | reflexivity].
Defined.

(** C9. Field 11 of every request is "123456": two requests, whatever
    their time, card and amount, carry the same trace number. *)
Theorem request_trace_number_constant (now now' : datetime)
    (pan expiry cvv pan' expiry' cvv' : string) (amount amount' : Z) :
  Iso8583.get_bit 11 (authorization_request now pan expiry cvv amount)
  = Some "123456"
  /\ Iso8583.get_bit 11 (authorization_request now pan expiry cvv amount)
     = Iso8583.get_bit 11 (authorization_request now' pan' expiry' cvv' amount').
Proof. split; reflexivity. Qed.

(** C10. Field 35 of every request is the PAN, the letter D, the expiry and
    the CVV as the caller gave them, in that order. *)
Theorem request_track2_data (now : datetime) (pan expiry cvv : string)
    (amount : Z) :
  Iso8583.get_bit 35 (authorization_request now pan expiry cvv amount)
  = Some (pan +:+ "D" +:+ expiry +:+ cvv).
Proof. reflexivity. Qed.

(** C8, for the codec of the specification.  A message within the
    constraints of the dictionary encodes, and decoding the bytes gives the
    message back: the same MTI and the same field map. *)
Theorem decode_encode_roundtrip (m : Iso8583.t) :
  MessageCodec.valid m = true ->
  exists data,
    MessageCodec.encode m = inr data /\ MessageCodec.decode data = inr m.
Proof.
  unfold MessageCodec.valid. rewrite !andb_true_iff.
  intros [[[Hlen Hdigits] Hfields] Hrequired].
  pose proof (CodecFacts.valid_fields_fit m Hfields) as Hfit.
  destruct (CodecFacts.fields_roundtrip (Iso8583.bits m) Hfit
              (map (MessageCodec.present (Iso8583.bits m)) (seq 1 64))
              (seq 2 63)) as (body & Hbody & Hdecode).
  { intros k Hk. apply in_seq in Hk. apply CodecFacts.bit_set_present. lia. }
  destruct (CodecFacts.bitmap_roundtrip (Iso8583.bits m)) as [Hbits Hbitmap].
  apply Nat.eqb_eq in Hlen.
  eexists. split.
  - unfold MessageCodec.encode.
    rewrite (proj2 (Nat.eqb_eq _ _) Hlen), Hdigits,
      (CodecFacts.valid_fields_known m Hfields), Hrequired, Hbody.
    reflexivity.
  - unfold MessageCodec.decode.
    rewrite <- Hlen at 1. rewrite CodecFacts.read_text. cbn [bind_result].
    rewrite <- Hbitmap at 1. rewrite CodecFacts.read_app. cbn [bind_result].
    rewrite Hbits, <- (app_nil_r body), Hdecode. cbn [bind_result].
    rewrite (CodecFacts.store_present_all _ Hfit),
      String.string_of_list_byte_of_string.
    now destruct m.
Qed.

Lemma decode_encode_roundtrip_witness :
  let m := authorization_request sample_now "4111111111111111" "2512" "123"
             1000 in
  exists data,
    MessageCodec.encode m = inr data /\ MessageCodec.decode data = inr m.
Proof. intros m. apply (decode_encode_roundtrip m). vm_compute. reflexivity. Defined.

(** * Further properties of the exchange

    ** What each step leaves of the world *)

Lemma set_incoming_same (w : World) : set_incoming (incoming w) w = w.
Proof. now destruct w. Qed.

Lemma recv_world (n : nat) (w : World) :
  exists rest, snd (recv n w) = set_incoming rest w.
Proof.
  unfold recv. destruct (recv_from n (incoming w)) as [r rest]. now exists rest.
Qed.

Lemma recv_body_world (fuel : nat) : forall (length : nat) (response : bytes)
    (w : World),
  exists rest, snd (recv_body fuel length response w) = set_incoming rest w.
Proof.
  induction fuel as [|fuel IH]; intros len response w.
  - exists (incoming w). rewrite set_incoming_same. simpl.
    now destruct (List.length response <? len).
  - rewrite recv_body_S.
    destruct (List.length response <? len);
      [|exists (incoming w); now rewrite set_incoming_same].
    unfold bind. destruct (recv_world (len - List.length response) w) as [rest Hr].
    destruct (recv (len - List.length response) w) as [[e|chunk] w1];
      simpl in Hr; subst w1; [now exists rest|].
    destruct chunk as [|b chunk]; [now exists rest|].
    destruct (IH len (response ++ b :: chunk) (set_incoming rest w)) as [rest' H'].
    exists rest'. now rewrite H'.
Qed.

(** [recv_frame] only consumes arrivals, and closes the socket when it
    returns. *)
Lemma recv_frame_world (w : World) :
  exists rest,
    snd (recv_frame w)
    = match fst (recv_frame w) with
      | inr _ => set_sock Closed (set_incoming rest w)
      | inl _ => set_incoming rest w
      end.
Proof.
  unfold recv_frame, bind.
  destruct (recv_world 2 w) as [rest Hr].
  destruct (recv 2 w) as [[e|raw_len] w1]; simpl in Hr; subst w1;
    [now exists rest|].
  destruct (length raw_len <? 2); [now exists rest|].
  destruct (struct_unpack_H raw_len) as [e|len]; [now exists rest|].
  cbn [lift ret].
  destruct (recv_body_world (N.to_nat len) (N.to_nat len) []
              (set_incoming rest w)) as [rest' Hb].
  destruct (recv_body (N.to_nat len) (N.to_nat len) [] (set_incoming rest w))
    as [[e|body] w2]; simpl in Hb; subst w2; now exists rest'.
Qed.

(** The four ways [send_frame] can leave the world. *)
Lemma send_frame_world (host : string) (port : Z) (msg : bytes) (w : World) :
  let w' := snd (send_frame host port msg w) in
  let connected := set_sock Connected (set_timeout 10 (set_sock Created w)) in
  (w' = w /\ socket_error w <> None)
  \/ (w' = set_timeout 10 (set_sock Created w)
      /\ connect_error w host port <> None)
  \/ (w' = connected /\ (65535 < N.of_nat (length msg))%N)
  \/ (exists hi lo k,
        struct_unpack_H [hi; lo] = inr (N.of_nat (length msg))
        /\ w' = write_wire (take k (hi :: lo :: msg)) connected
        /\ (fst (send_frame host port msg w) = inr tt ->
            w' = write_wire (hi :: lo :: msg) connected)).
Proof.
  cbv zeta. rewrite send_frame_run.
  destruct (socket_error w) eqn:Es; [left; now split|].
  destruct (connect_error w host port) eqn:Ec; [right; left; now split|].
  cbn zeta. right; right.
  destruct (N.le_gt_cases (N.of_nat (length msg)) 65535) as [Hn|Hn].
  - right. destruct (struct_pack_H_fits _ Hn) as (hi & lo & -> & Hunpack).
    unfold sendall.
    change (send_error (set_sock Connected (set_timeout 10 (set_sock Created w))))
      with (send_error w).
    cbn [app]. destruct (send_error w) as [[k e]|].
    + exists hi, lo, k. split; [exact Hunpack|]. split; [reflexivity|].
      intros H. discriminate H.
    + exists hi, lo, (length (hi :: lo :: msg)).
      rewrite take_ge by lia. split; [exact Hunpack|]. split; reflexivity.
  - left. rewrite (struct_pack_H_overflow _ Hn). now split.
Qed.

(** ** Reading a frame that is complete, or interrupted *)

Lemma recv_data (n : nat) (w : World) (b : byte) (bs : bytes)
    (rest : list arrival) :
  incoming w = Data (b :: bs) :: rest ->
  recv n w
  = (inr (take n (b :: bs)),
     set_incoming match drop n (b :: bs) with
                  | [] => rest
                  | later => Data later :: rest
                  end w).
Proof. intros H. unfold recv. rewrite H. reflexivity. Qed.

Lemma recv_fault (n : nat) (w : World) (e : exn) (rest : list arrival) :
  incoming w = Fault e :: rest -> recv n w = (inl e, set_incoming rest w).
Proof. intros H. unfold recv. rewrite H. reflexivity. Qed.

(** Enough data has arrived: the loop returns the bytes it was asked for and
    leaves the others, and what comes after them, unread. *)
Lemma recv_body_complete (chunks : list bytes) : forall (fuel length : nat)
    (response : bytes) (w : World) (after : list arrival),
  incoming w = map Data chunks ++ after ->
  List.length response <= length ->
  length <= List.length response + List.length (concat chunks) ->
  length - List.length response <= fuel ->
  exists chunks',
    recv_body fuel length response w
    = (inr (response ++ take (length - List.length response) (concat chunks)),
       set_incoming (map Data chunks' ++ after) w)
    /\ concat chunks' = drop (length - List.length response) (concat chunks).
Proof.
  assert (Hdone : forall chunks fuel len response w after,
             incoming w = map Data chunks ++ after ->
             List.length response = len ->
             exists chunks',
               recv_body fuel len response w
               = (inr (response ++ take (len - List.length response)
                                     (concat chunks)),
                  set_incoming (map Data chunks' ++ after) w)
               /\ concat chunks'
                  = drop (len - List.length response) (concat chunks)).
  { intros cs fuel len response w after Hin Hlen. exists cs.
    rewrite recv_body_done by lia.
    replace (len - List.length response) with 0 by lia.
    rewrite take_0, drop_0, app_nil_r, <- Hin, set_incoming_same. now split. }
  induction chunks as [|chunk chunks IH];
    intros fuel len response w after Hin Hle Hdata Hfuel.
  - apply Hdone; [exact Hin | simpl in Hdata; lia].
  - destruct (Nat.eq_dec (List.length response) len) as [Heq|Hne];
      [now apply Hdone|].
    destruct fuel as [|fuel]; [lia|].
    rewrite recv_body_S.
    replace (List.length response <? len) with true
      by (symmetry; apply Nat.ltb_lt; lia).
    destruct chunk as [|b chunk].
    + destruct (IH (S fuel) len response
                  (set_incoming (map Data chunks ++ after) w) after eq_refl
                  Hle Hdata Hfuel) as (chunks' & Hrun & Hrest).
      exists chunks'. split; [|exact Hrest].
      rewrite recv_body_S in Hrun.
      replace (List.length response <? len) with true in Hrun
        by (symmetry; apply Nat.ltb_lt; lia).
      unfold bind in *. now rewrite (recv_skip _ _ _ Hin).
    + change (map Data ((b :: chunk) :: chunks) ++ after)
        with (Data (b :: chunk) :: (map Data chunks ++ after)) in Hin.
      rewrite (bind_inr _ _ _ _ _ (recv_data _ _ _ _ _ Hin)).
      remember (len - List.length response) as need eqn:Eneed.
      destruct need as [|need']; [lia|].
      cbn [take]. cbv beta iota.
      destruct (Nat.le_gt_cases (List.length (b :: chunk)) (S need'))
        as [Hwhole|Hpart].
      * rewrite (drop_ge (b :: chunk)) by exact Hwhole.
        rewrite (take_ge chunk) by (simpl in Hwhole; lia).
        cbv beta iota.
        destruct (IH fuel len (response ++ b :: chunk)
                    (set_incoming (map Data chunks ++ after) w) after eq_refl)
          as (chunks' & Hrun & Hrest);
          [rewrite length_app; cbn [length] in *; lia
          |rewrite length_app; cbn [length concat] in *;
           rewrite length_app in Hdata; cbn [length] in *; lia
          |rewrite length_app; cbn [length] in *; lia|].
        exists chunks'. rewrite Hrun. rewrite length_app in *.
        replace (len - (List.length response + List.length (b :: chunk)))
          with (S need' - List.length (b :: chunk)) in * by (simpl; lia).
        split.
        -- rewrite <- app_assoc. cbn [concat].
           now rewrite (take_app_ge (b :: chunk)) by exact Hwhole.
        -- cbn [concat]. now rewrite (drop_app_ge (b :: chunk)) by exact Hwhole.
      * exists (drop (S need') (b :: chunk) :: chunks).
        assert (Hleft : drop (S need') (b :: chunk) <> []).
        { intros H. apply drop_nil_inv in H. lia. }
        rewrite recv_body_done
          by (rewrite length_app; simpl; rewrite length_take; simpl in *; lia).
        split.
        -- cbn [concat].
           rewrite (take_app_le (b :: chunk)) by lia. cbn [take].
           destruct (drop (S need') (b :: chunk)); [congruence|reflexivity].
        -- cbn [concat]. now rewrite (drop_app_le (b :: chunk)) by lia.
Qed.

(** A fault of the read before the body is complete ends the loop with that
    fault. *)
Lemma recv_body_fault (chunks : list bytes) : forall (fuel length : nat)
    (response : bytes) (w : World) (e : exn) (after : list arrival),
  incoming w = map Data chunks ++ Fault e :: after ->
  List.length response + List.length (concat chunks) < length ->
  length - List.length response <= fuel ->
  recv_body fuel length response w = (inl e, set_incoming after w).
Proof.
  induction chunks as [|chunk chunks IH];
    intros fuel len response w e after Hin Hshort Hfuel;
    (destruct fuel as [|fuel]; [simpl in Hshort; lia|]);
    rewrite recv_body_S;
    (replace (List.length response <? len) with true
       by (symmetry; apply Nat.ltb_lt; simpl in Hshort; lia)).
  - now rewrite (bind_inl _ _ _ _ _ (recv_fault _ _ _ _ Hin)).
  - destruct chunk as [|b chunk].
    + unfold bind. rewrite (recv_skip _ _ _ Hin).
      specialize (IH (S fuel) len response
                    (set_incoming (map Data chunks ++ Fault e :: after) w)
                    e after eq_refl Hshort Hfuel).
      rewrite recv_body_S in IH.
      replace (List.length response <? len) with true in IH
        by (symmetry; apply Nat.ltb_lt; simpl in Hshort; lia).
      exact IH.
    + simpl in Hshort. rewrite length_app in Hshort.
      erewrite bind_inr by (apply (recv_whole _ _ _ _ _ Hin); simpl; lia).
      cbv beta iota.
      rewrite IH with (e := e) (after := after) (fuel := fuel);
        [reflexivity|reflexivity| |]; rewrite length_app; simpl; lia.
Qed.


(** Enough bytes behind a header that came in one arrival. *)
Lemma recv_frame_complete (w : World) (hi lo : byte) (first : bytes)
    (chunks : list bytes) (after : list arrival) (len : N) :
  incoming w = Data (hi :: lo :: first) :: map Data chunks ++ after ->
  struct_unpack_H [hi; lo] = inr len ->
  N.to_nat len <= length (first ++ concat chunks) ->
  exists chunks',
    recv_frame w
    = (inr (take (N.to_nat len) (first ++ concat chunks)),
       set_sock Closed (set_incoming (map Data chunks' ++ after) w))
    /\ concat chunks' = drop (N.to_nat len) (first ++ concat chunks).
Proof.
  intros Hin Hlen Hdata. unfold recv_frame.
  rewrite (bind_inr _ _ _ _ _ (recv_header _ _ _ _ _ Hin)).
  cbv beta. change (length [hi; lo] <? 2) with false. cbv iota.
  rewrite Hlen. unfold lift. rewrite (bind_inr _ _ _ _ len eq_refl).
  set (w1 := set_incoming _ w).
  assert (Hw1 : incoming w1 = map Data (first :: chunks) ++ after
                \/ (first = [] /\ incoming w1 = map Data chunks ++ after)).
  { subst w1. destruct first; [right; now split | now left]. }
  assert (Hbody : exists chunks',
             recv_body (N.to_nat len) (N.to_nat len) [] w1
             = (inr (take (N.to_nat len) (first ++ concat chunks)),
                set_incoming (map Data chunks' ++ after) w1)
             /\ concat chunks' = drop (N.to_nat len) (first ++ concat chunks)).
  { destruct Hw1 as [Hw1|[-> Hw1]].
    - destruct (recv_body_complete (first :: chunks) (N.to_nat len)
                  (N.to_nat len) [] w1 after Hw1) as (chunks' & Hrun & Hrest);
        [simpl; lia | exact Hdata | simpl; lia|].
      exists chunks'. rewrite Nat.sub_0_r in *. now split.
    - destruct (recv_body_complete chunks (N.to_nat len) (N.to_nat len) []
                  w1 after Hw1) as (chunks' & Hrun & Hrest);
        [simpl; lia | exact Hdata | simpl; lia|].
      exists chunks'. rewrite Nat.sub_0_r in *. now split. }
  destruct Hbody as (chunks' & Hrun & Hrest). exists chunks'.
  split; [|exact Hrest].
  rewrite (bind_inr _ _ _ _ _ Hrun). reflexivity.
Qed.

(** ** The five ways the call can end *)

Lemma authorize_cases {codec : Codec} (host : string) (port : Z)
    (pan expiry cvv : string) (amount : Z) (w : World) :
  let run := send_iso_authorization host port pan expiry cvv amount w in
  let request := authorization_request (clock w) pan expiry cvv amount in
  let line := "Error in ISO8583 communication" in
  (exists e,
     get_network_message request = inl e
     /\ run = (inr (Failure false (str e) "96"), write_log line w))
  \/ (exists msg e w1,
        get_network_message request = inr msg
        /\ send_frame host port msg w = (inl e, w1)
        /\ run = (inr (Failure false (str e) "96"), write_log line w1))
  \/ (exists msg w1 e w2,
        get_network_message request = inr msg
        /\ send_frame host port msg w = (inr tt, w1)
        /\ recv_frame w1 = (inl e, w2)
        /\ run = (inr (Failure false (str e) "96"), write_log line w2))
  \/ (exists msg w1 response w2 e,
        get_network_message request = inr msg
        /\ send_frame host port msg w = (inr tt, w1)
        /\ recv_frame w1 = (inr response, w2)
        /\ set_network_message response = inl e
        /\ run = (inr (Failure false (str e) "96"), write_log line w2))
  \/ (exists msg w1 response w2 iso_response,
        get_network_message request = inr msg
        /\ send_frame host port msg w = (inr tt, w1)
        /\ recv_frame w1 = (inr response, w2)
        /\ set_network_message response = inr iso_response
        /\ run = (inr (authorization_result iso_response), w2)).
Proof.
  cbv zeta.
  destruct (get_network_message
              (authorization_request (clock w) pan expiry cvv amount))
    as [e|msg] eqn:H1.
  { left. exists e. split; [reflexivity|].
    apply authorize_normalizes. rewrite exchange_run, H1. reflexivity. }
  right. destruct (send_frame host port msg w) as [[e|[]] w1] eqn:H2.
  { left. exists msg, e, w1. split; [reflexivity|]. split; [exact H2|].
    apply authorize_normalizes. rewrite exchange_run, H1, H2. reflexivity. }
  right. destruct (recv_frame w1) as [[e|response] w2] eqn:H3.
  { left. exists msg, w1, e, w2.
    split; [reflexivity|]. split; [exact H2|]. split; [exact H3|].
    apply authorize_normalizes. rewrite exchange_run, H1, H2, H3. reflexivity. }
  right. destruct (set_network_message response) as [e|iso] eqn:H4.
  { left. exists msg, w1, response, w2, e.
    split; [reflexivity|]. split; [exact H2|]. split; [exact H3|].
    split; [exact H4|].
    apply authorize_normalizes.
    rewrite exchange_run, H1, H2, H3, H4. reflexivity. }
  right. exists msg, w1, response, w2, iso.
  split; [reflexivity|]. split; [exact H2|]. split; [exact H3|].
  split; [exact H4|].
  apply authorize_returns. rewrite exchange_run, H1, H2, H3, H4. reflexivity.
Qed.

(** What [send_frame] and [recv_frame] leave untouched. *)

Lemma send_frame_keeps (host : string) (port : Z) (msg : bytes) (w : World) :
  let w' := snd (send_frame host port msg w) in
  log w' = log w /\ incoming w' = incoming w /\ clock w' = clock w.
Proof.
  cbv zeta.
  destruct (send_frame_world host port msg w)
    as [[-> _]|[[-> _]|[[-> _]|(hi & lo & k & _ & -> & _)]]];
    repeat split.
Qed.

Lemma recv_frame_keeps (w : World) :
  let w' := snd (recv_frame w) in
  log w' = log w /\ wire w' = wire w /\ timeout w' = timeout w.
Proof.
  cbv zeta. destruct (recv_frame_world w) as [rest ->].
  destruct (fst (recv_frame w)); repeat split.
Qed.

Lemma send_frame_returns (host : string) (port : Z) (msg : bytes)
    (w w1 : World) :
  send_frame host port msg w = (inr tt, w1) ->
  socket_error w = None /\ connect_error w host port = None
  /\ (N.of_nat (length msg) <= 65535)%N
  /\ exists hi lo,
       struct_unpack_H [hi; lo] = inr (N.of_nat (length msg))
       /\ w1 = write_wire (hi :: lo :: msg)
                 (set_sock Connected (set_timeout 10 (set_sock Created w))).
Proof.
  intros Hsend.
  pose proof (send_frame_world host port msg w) as Hw.
  rewrite Hsend in Hw. cbn [fst snd] in Hw. cbv zeta in Hw.
  rewrite send_frame_run in Hsend.
  destruct (socket_error w); [discriminate|].
  destruct (connect_error w host port); [discriminate|]. cbn zeta in Hsend.
  destruct (N.le_gt_cases (N.of_nat (length msg)) 65535) as [Hn|Hn];
    [|rewrite (struct_pack_H_overflow _ Hn) in Hsend; discriminate].
  repeat split; [exact Hn|].
  destruct Hw as [[_ Hs]|[[_ Hc]|[[_ Hbig]|(hi & lo & k & Hlen & _ & Hall)]]];
    [congruence | congruence | lia |].
  exists hi, lo. split; [exact Hlen | now apply Hall].
Qed.

(** ** Frames: what is read, what is left *)

(** X1. When the two header bytes come in one arrival and at least the
    announced number of body bytes follow, in any split into arrivals,
    [recv_frame] returns exactly the announced bytes and closes the socket.
    The bytes after the frame stay unread, and so does whatever comes after
    them, a fault included; a header announcing 0 reads nothing more.
    Nothing is written or logged. *)
Theorem recv_frame_reads_announced (w : World) (hi lo : byte) (first : bytes)
    (chunks : list bytes) (after : list arrival) (len : N) :
  incoming w = Data (hi :: lo :: first) :: map Data chunks ++ after ->
  struct_unpack_H [hi; lo] = inr len ->
  N.to_nat len <= length (first ++ concat chunks) ->
  exists w' chunks',
    recv_frame w = (inr (take (N.to_nat len) (first ++ concat chunks)), w')
    /\ sock w' = Closed
    /\ incoming w' = map Data chunks' ++ after
    /\ concat chunks' = drop (N.to_nat len) (first ++ concat chunks)
    /\ wire w' = wire w /\ log w' = log w.
Proof.
  intros Hin Hlen Hdata.
  destruct (recv_frame_complete _ _ _ _ _ _ _ Hin Hlen Hdata)
    as (chunks' & Hrun & Hrest).
  eexists _, chunks'. split; [exact Hrun|].
  split; [reflexivity|]. split; [reflexivity|]. split; [exact Hrest|].
  split; reflexivity.
Qed.

Lemma recv_frame_reads_announced_witness :
  let w := host_delivering
             [Data [x00; x03; x41]; Data [x42]; Data [x43; x44];
              Fault (Raise "TimeoutError" "timed out")] in
  exists w' chunks',
    recv_frame w
    = (inr (take 3 ([x41] ++ concat [[x42]; [x43; x44]])), w')
    /\ sock w' = Closed
    /\ incoming w'
       = map Data chunks' ++ [Fault (Raise "TimeoutError" "timed out")]
    /\ concat chunks' = drop 3 ([x41] ++ concat [[x42]; [x43; x44]])
    /\ wire w' = wire w /\ log w' = log w.
Proof.
  intros w.
  apply (recv_frame_reads_announced w x00 x03 [x41] [[x42]; [x43; x44]]
           [Fault (Raise "TimeoutError" "timed out")] 3%N);
    [reflexivity | reflexivity | vm_compute; lia].
Defined.

(** X2. Framing round trip: the bytes a successful [send_frame] wrote for
    [msg], delivered to [recv_frame] with the header in one arrival and the
    rest in any split, with or without more bytes behind, are read back as
    [msg]. *)
Theorem frame_round_trip (host : string) (port : Z) (msg sent : bytes)
    (w w1 w2 : World) (hi lo : byte) (first extra : bytes)
    (chunks : list bytes) (after : list arrival) :
  send_frame host port msg w = (inr tt, w1) ->
  wire w1 = wire w ++ sent ->
  incoming w2 = Data (hi :: lo :: first) :: map Data chunks ++ after ->
  hi :: lo :: first ++ concat chunks = sent ++ extra ->
  exists w3, recv_frame w2 = (inr msg, w3) /\ sock w3 = Closed.
Proof.
  intros Hsend Hwire Hin Hsplit.
  pose proof (send_frame_world host port msg w) as Hw.
  rewrite Hsend in Hw. cbn [fst snd] in Hw. cbv zeta in Hw.
  rewrite send_frame_run in Hsend.
  destruct Hw as [[_ Hs]|[[_ Hc]|[[_ Hbig]|(hi' & lo' & k & Hlen & _ & Hall)]]].
  - destruct (socket_error w); [discriminate | congruence].
  - destruct (socket_error w); [discriminate|].
    destruct (connect_error w host port); [discriminate | congruence].
  - destruct (socket_error w); [discriminate|].
    destruct (connect_error w host port); [discriminate|]. cbn zeta in Hsend.
    rewrite (struct_pack_H_overflow _ Hbig) in Hsend. discriminate.
  - specialize (Hall eq_refl). subst w1. cbn [wire write_wire set_sock set_timeout] in Hwire.
    apply app_inv_head in Hwire. subst sent.
    cbn [app] in Hsplit. injection Hsplit as -> -> Hbody.
    destruct (recv_frame_complete w2 hi' lo' first chunks after
                (N.of_nat (length msg)) Hin Hlen) as (chunks' & Hrun & _).
    { rewrite Nat2N.id, Hbody, length_app. lia. }
    rewrite Hrun, Nat2N.id, Hbody, take_app_length.
    eexists. split; reflexivity.
Qed.

Lemma frame_round_trip_witness :
  exists w3,
    recv_frame (host_delivering
                  [Data [x00; x03; x41]; Data [x42]; Data [x43; x44]])
    = (inr [x41; x42; x43], w3)
    /\ sock w3 = Closed.
Proof.
  apply (frame_round_trip "203.0.113.7" 8583 [x41; x42; x43]
           [x00; x03; x41; x42; x43] (host_delivering [])
           (snd (send_frame "203.0.113.7" 8583 [x41; x42; x43]
                   (host_delivering [])))
           _ x00 x03 [x41] [x44] [[x42]; [x43; x44]] []);
    reflexivity.
Defined.

(** X3. Whatever the peer delivers, a body that [recv_frame] returns has
    exactly the length announced by the two header bytes that [recv(2)]
    returned, and the socket is closed then. *)
Theorem recv_frame_exact (w w' : World) (body : bytes) :
  recv_frame w = (inr body, w') ->
  exists hi lo len,
    fst (recv 2 w) = inr [hi; lo]
    /\ struct_unpack_H [hi; lo] = inr len
    /\ length body = N.to_nat len
    /\ sock w' = Closed.
Proof.
  intros Hrun.
  pose proof (recv_frame_sock w) as Hsock. rewrite Hrun in Hsock.
  unfold recv_frame, bind in Hrun.
  destruct (recv 2 w) as [[e|raw_len] w1] eqn:Hrecv; [discriminate|].
  pose proof (recv_length _ _ _ _ Hrecv) as Hmax.
  destruct (length raw_len <? 2) eqn:Hshort; [discriminate|].
  apply Nat.ltb_ge in Hshort.
  destruct raw_len as [|hi [|lo [|? ?]]]; try (simpl in *; lia).
  destruct (struct_unpack_H [hi; lo]) as [e|len] eqn:Hlen; [discriminate|].
  cbn [lift ret] in Hrun.
  destruct (recv_body (N.to_nat len) (N.to_nat len) [] w1)
    as [[e|body'] w2] eqn:Hbody; [discriminate|].
  injection Hrun as <- _.
  exists hi, lo, len.
  split; [reflexivity|]. split; [exact Hlen|]. split; [|exact Hsock].
  eapply recv_body_exact; [| |exact Hbody]; simpl; lia.
Qed.

Lemma recv_frame_exact_witness :
  exists hi lo len,
    fst (recv 2 (host_delivering [Data [x00; x02; x41]; Data [x42; x43]]))
    = inr [hi; lo]
    /\ struct_unpack_H [hi; lo] = inr len
    /\ length [x41; x42] = N.to_nat len
    /\ sock (snd (recv_frame
                    (host_delivering [Data [x00; x02; x41]; Data [x42; x43]])))
       = Closed.
Proof.
  apply (recv_frame_exact
           (host_delivering [Data [x00; x02; x41]; Data [x42; x43]])).
  reflexivity.
Defined.

(** X4. A fault of the read (a timeout, a reset) that comes after the header
    and before the body is complete ends the exchange with that fault: the
    caller gets the failure record with the message of the fault, the
    arrivals behind the fault are not read, and the socket is not closed. *)
Theorem fault_in_body_is_reported {codec : Codec} (host : string) (port : Z)
    (pan expiry cvv : string) (amount : Z) (w w1 : World) (msg : bytes)
    (hi lo : byte) (first : bytes) (chunks : list bytes) (e : exn)
    (after : list arrival) (len : N) :
  get_network_message (authorization_request (clock w) pan expiry cvv amount)
  = inr msg ->
  send_frame host port msg w = (inr tt, w1) ->
  incoming w1
  = Data (hi :: lo :: first) :: map Data chunks ++ Fault e :: after ->
  struct_unpack_H [hi; lo] = inr len ->
  length (first ++ concat chunks) < N.to_nat len ->
  recv_frame w1 = (inl e, set_incoming after w1)
  /\ send_iso_authorization host port pan expiry cvv amount w
     = (inr (Failure false (str e) "96"),
        write_log "Error in ISO8583 communication" (set_incoming after w1))
  /\ sock (snd (send_iso_authorization host port pan expiry cvv amount w))
     = Connected.
Proof.
  intros H1 H2 Hin Hlen Hshort.
  assert (Hr : recv_frame w1 = (inl e, set_incoming after w1)).
  { unfold recv_frame.
    rewrite (bind_inr _ _ _ _ _ (recv_header _ _ _ _ _ Hin)).
    cbv beta. change (length [hi; lo] <? 2) with false. cbv iota.
    rewrite Hlen. unfold lift. rewrite (bind_inr _ _ _ _ len eq_refl).
    set (w2 := set_incoming _ w1).
    assert (Hbody : recv_body (N.to_nat len) (N.to_nat len) [] w2
                    = (inl e, set_incoming after w2)).
    { destruct first as [|b first].
      - apply (recv_body_fault chunks); [reflexivity|exact Hshort|simpl; lia].
      - apply (recv_body_fault ((b :: first) :: chunks));
          [reflexivity| |simpl; lia].
        simpl in *. exact Hshort. }
    now rewrite (bind_inl _ _ _ _ _ Hbody). }
  split; [exact Hr|]. split.
  - apply authorize_normalizes. rewrite exchange_run, H1, H2, Hr. reflexivity.
  - apply (failed_receive_leaves_socket_open _ _ _ _ _ _ _ _ _ _ _ H1 H2 Hr).
Qed.

Lemma fault_in_body_is_reported_witness :
  let w := host_delivering [Data [x00; x1a; x30]; Data [x31];
                            Fault (Raise "TimeoutError" "timed out");
                            Data [x32]] in
  let msg := wire_bytes (authorization_request sample_now "4111111111111111"
                           "2512" "123" 1000) in
  let w1 := snd (send_frame "203.0.113.7" 8583 msg w) in
  recv_frame w1 = (inl (Raise "TimeoutError" "timed out"),
                   set_incoming [Data [x32]] w1)
  /\ send_iso_authorization (codec := spec_codec) "203.0.113.7" 8583
       "4111111111111111" "2512" "123" 1000 w
     = (inr (Failure false (str (Raise "TimeoutError" "timed out")) "96"),
        write_log "Error in ISO8583 communication"
          (set_incoming [Data [x32]] w1))
  /\ sock (snd (send_iso_authorization (codec := spec_codec) "203.0.113.7"
                  8583 "4111111111111111" "2512" "123" 1000 w))
     = Connected.
Proof.
  intros w msg w1.
  apply (fault_in_body_is_reported (codec := spec_codec) "203.0.113.7" 8583
           "4111111111111111" "2512" "123" 1000 w w1 msg
           x00 x1a [x30] [[x31]] (Raise "TimeoutError" "timed out")
           [Data [x32]] 26%N);
    [vm_compute; reflexivity | vm_compute; reflexivity | reflexivity
    | reflexivity | vm_compute; lia].
Defined.

(** ** The whole call: approval, log, socket, traffic *)

Lemma approved_result (iso_response : Iso8583.t) :
  approved (authorization_result iso_response) = true
  <-> Iso8583.get_bit 39 iso_response = Some "00".
Proof.
  unfold authorization_result, approved, value_eqb.
  destruct (Iso8583.get_bit 39 iso_response) as [v|]; [|split; discriminate].
  rewrite String.eqb_eq. split; [now intros -> | now intros [= ->]].
Qed.

(** X5. The function approves only what a host answered: when the returned
    dictionary has [approved] true, the request was encoded and written, a
    complete frame was read and decoded, its field 39 is "00", the socket
    is closed and nothing was logged. *)
Theorem approval_only_from_response {codec : Codec} (host : string)
    (port : Z) (pan expiry cvv : string) (amount : Z) (w w' : World)
    (r : AuthorizationResult) :
  send_iso_authorization host port pan expiry cvv amount w = (inr r, w') ->
  approved r = true ->
  exists msg w1 response iso_response,
    get_network_message (authorization_request (clock w) pan expiry cvv amount)
    = inr msg
    /\ send_frame host port msg w = (inr tt, w1)
    /\ recv_frame w1 = (inr response, w')
    /\ set_network_message response = inr iso_response
    /\ Iso8583.get_bit 39 iso_response = Some "00"
    /\ r = authorization_result iso_response
    /\ sock w' = Closed
    /\ log w' = log w.
Proof.
  intros Hrun Happroved.
  destruct (authorize_cases host port pan expiry cvv amount w)
    as [(e & _ & H)|[(msg & e & w1 & _ & _ & H)
       |[(msg & w1 & e & w2 & _ & _ & _ & H)
       |[(msg & w1 & response & w2 & e & _ & _ & _ & _ & H)
       |(msg & w1 & response & w2 & iso & H1 & H2 & H3 & H4 & H)]]]];
    rewrite Hrun in H; injection H as -> ->; try discriminate Happroved.
  exists msg, w1, response, iso.
  split; [exact H1|]. split; [exact H2|]. split; [exact H3|].
  split; [exact H4|]. split; [now apply approved_result|].
  split; [reflexivity|].
  pose proof (recv_frame_sock w1) as Hs. rewrite H3 in Hs.
  split; [exact Hs|].
  pose proof (recv_frame_keeps w1) as (Hl & _). rewrite H3 in Hl.
  pose proof (send_frame_keeps host port msg w) as (Hl' & _).
  rewrite H2 in Hl'. simpl in *. congruence.
Qed.

Lemma approval_only_from_response_witness :
  let w := host_delivering [Data (framed (wire_bytes approval))] in
  let run := send_iso_authorization (codec := spec_codec) "203.0.113.7" 8583
               "4111111111111111" "2512" "123" 1000 w in
  exists msg w1 response iso_response,
    MessageCodec.encode (authorization_request (clock w) "4111111111111111"
                           "2512" "123" 1000) = inr msg
    /\ send_frame "203.0.113.7" 8583 msg w = (inr tt, w1)
    /\ recv_frame w1 = (inr response, snd run)
    /\ MessageCodec.decode response = inr iso_response
    /\ Iso8583.get_bit 39 iso_response = Some "00"
    /\ authorization_result approval = authorization_result iso_response
    /\ sock (snd run) = Closed
    /\ log (snd run) = log w.
Proof.
  intros w run.
  apply (approval_only_from_response (codec := spec_codec) "203.0.113.7" 8583
           "4111111111111111" "2512" "123" 1000 w (snd run)
           (authorization_result approval));
    vm_compute; reflexivity.
Defined.

(** X6. The function logs one line, "Error in ISO8583 communication", when
    it returns the failure record, and nothing when it returns an answer. *)
Theorem one_line_logged_on_failure {codec : Codec} (host : string) (port : Z)
    (pan expiry cvv : string) (amount : Z) (w : World) :
  let run := send_iso_authorization host port pan expiry cvv amount w in
  exists r,
    fst run = inr r
    /\ log (snd run)
       = log w ++ match error r with
                  | Some _ => ["Error in ISO8583 communication"]
                  | None => []
                  end.
Proof.
  cbv zeta.
  destruct (authorize_cases host port pan expiry cvv amount w)
    as [(e & _ & ->)|[(msg & e & w1 & _ & H2 & ->)
       |[(msg & w1 & e & w2 & _ & H2 & H3 & ->)
       |[(msg & w1 & response & w2 & e & _ & H2 & H3 & _ & ->)
       |(msg & w1 & response & w2 & iso & _ & H2 & H3 & _ & ->)]]]];
    eexists; (split; [reflexivity|]); cbn [fst snd error authorization_result];
    try (pose proof (send_frame_keeps host port msg w) as (Hl & _);
         rewrite H2 in Hl; cbn [snd] in Hl);
    try (pose proof (recv_frame_keeps w1) as (Hl' & _);
         rewrite H3 in Hl'; cbn [snd] in Hl');
    cbn [log write_log]; rewrite ?app_nil_r; congruence.
Qed.

(** X7. A call that starts without a socket returns with the socket closed
    exactly when a complete frame was read: every other way out leaves the
    socket as the failing step found it. *)
Theorem socket_closed_iff_frame_read {codec : Codec} (host : string)
    (port : Z) (pan expiry cvv : string) (amount : Z) (w : World) :
  sock w = NoSocket ->
  sock (snd (send_iso_authorization host port pan expiry cvv amount w))
  = Closed
  <-> exists msg w1 response w2,
        get_network_message
          (authorization_request (clock w) pan expiry cvv amount) = inr msg
        /\ send_frame host port msg w = (inr tt, w1)
        /\ recv_frame w1 = (inr response, w2).
Proof.
  intros Hstart.
  destruct (authorize_cases host port pan expiry cvv amount w)
    as [(e & H1 & ->)|[(msg & e & w1 & H1 & H2 & ->)
       |[(msg & w1 & e & w2 & H1 & H2 & H3 & ->)
       |[(msg & w1 & response & w2 & e & H1 & H2 & H3 & _ & ->)
       |(msg & w1 & response & w2 & iso & H1 & H2 & H3 & _ & ->)]]]];
    cbn [snd sock write_log].
  - split; [congruence|]. intros (msg & ? & ? & ? & Hm & _). congruence.
  - split.
    + pose proof (send_frame_world host port msg w) as Hw.
      rewrite H2 in Hw. cbn [fst snd] in Hw. cbv zeta in Hw.
      destruct Hw as [[-> _]|[[-> _]|[[-> _]|(? & ? & ? & _ & -> & _)]]];
        cbn; congruence.
    + intros (msg' & w1' & ? & ? & Hm & Hs & _).
      rewrite H1 in Hm. injection Hm as <-. congruence.
  - split.
    + pose proof (recv_frame_sock w1) as Hs. rewrite H3 in Hs.
      rewrite Hs, (send_frame_connected _ _ _ _ _ H2). discriminate.
    + intros (msg' & w1' & ? & ? & Hm & Hs & Hr).
      rewrite H1 in Hm. injection Hm as <-.
      rewrite H2 in Hs. injection Hs as <-. congruence.
  - pose proof (recv_frame_sock w1) as Hs. rewrite H3 in Hs.
    split; [eauto 10 | intros _; exact Hs].
  - pose proof (recv_frame_sock w1) as Hs. rewrite H3 in Hs.
    split; [eauto 10 | intros _; exact Hs].
Qed.

Lemma socket_closed_iff_frame_read_witness :
  let w := host_delivering [Data [x00; x1a; x30]] in
  sock (snd (send_iso_authorization (codec := spec_codec) "203.0.113.7" 8583
               "4111111111111111" "2512" "123" 1000 w)) = Closed
  <-> exists msg w1 response w2,
        MessageCodec.encode
          (authorization_request (clock w) "4111111111111111" "2512" "123"
             1000) = inr msg
        /\ send_frame "203.0.113.7" 8583 msg w = (inr tt, w1)
        /\ recv_frame w1 = (inr response, w2).
Proof.
  intros w.
  apply (socket_closed_iff_frame_read (codec := spec_codec) "203.0.113.7"
           8583 "4111111111111111" "2512" "123" 1000 w).
  reflexivity.
Defined.

(** X8. No traffic without a connection, no read without a complete write:
    a request that does not encode changes nothing but the log; when the
    socket cannot be created, the connection fails or the message is longer
    than 65535 bytes, no byte is written and no arrival is consumed; when
    the write fails, no arrival is consumed. *)
Theorem no_traffic_without_send {codec : Codec} (host : string) (port : Z)
    (pan expiry cvv : string) (amount : Z) (w : World) :
  let run := send_iso_authorization host port pan expiry cvv amount w in
  let request := authorization_request (clock w) pan expiry cvv amount in
  (forall e,
     get_network_message request = inl e ->
     snd run = write_log "Error in ISO8583 communication" w)
  /\ (forall msg,
        get_network_message request = inr msg ->
        socket_error w <> None \/ connect_error w host port <> None
        \/ (65535 < N.of_nat (length msg))%N ->
        wire (snd run) = wire w /\ incoming (snd run) = incoming w
        /\ exists e, fst run = inr (Failure false e "96"))
  /\ (forall msg e w1,
        get_network_message request = inr msg ->
        send_frame host port msg w = (inl e, w1) ->
        incoming (snd run) = incoming w
        /\ fst run = inr (Failure false (str e) "96")).
Proof.
  cbv zeta. split; [|split].
  - intros e H1.
    erewrite authorize_normalizes by (rewrite exchange_run, H1; reflexivity).
    reflexivity.
  - intros msg H1 Hno.
    assert (Hsend : exists e w1,
               send_frame host port msg w = (inl e, w1)
               /\ wire w1 = wire w /\ incoming w1 = incoming w).
    { rewrite send_frame_run.
      destruct (socket_error w) eqn:Es; [eexists _, _; now repeat split|].
      destruct (connect_error w host port) eqn:Ec;
        [eexists _, _; now repeat split|].
      destruct Hno as [?|[?|Hbig]]; [congruence | congruence |].
      cbn zeta. rewrite (struct_pack_H_overflow _ Hbig).
      eexists _, _; now repeat split. }
    destruct Hsend as (e & w1 & H2 & Hwire & Hin).
    erewrite authorize_normalizes
      by (rewrite exchange_run, H1, H2; reflexivity).
    cbn [fst snd wire incoming write_log]. eauto.
  - intros msg e w1 H1 H2.
    erewrite authorize_normalizes
      by (rewrite exchange_run, H1, H2; reflexivity).
    cbn [fst snd incoming write_log].
    pose proof (send_frame_keeps host port msg w) as (_ & Hi & _).
    rewrite H2 in Hi. split; [exact Hi | reflexivity].
Qed.

(** X9. Once the request was written, the wire holds exactly one frame for
    the rest of the call, whatever the receive and the decoding do: the
    two length bytes, big-endian, and the message; nothing is written
    after it. *)
Theorem request_written_once {codec : Codec} (host : string) (port : Z)
    (pan expiry cvv : string) (amount : Z) (w w1 : World) (msg : bytes) :
  get_network_message (authorization_request (clock w) pan expiry cvv amount)
  = inr msg ->
  send_frame host port msg w = (inr tt, w1) ->
  exists hi lo,
    struct_unpack_H [hi; lo] = inr (N.of_nat (length msg))
    /\ wire (snd (send_iso_authorization host port pan expiry cvv amount w))
       = wire w ++ hi :: lo :: msg.
Proof.
  intros H1 H2.
  destruct (send_frame_returns _ _ _ _ _ H2) as (_ & _ & _ & hi & lo & Hlen & Hw1).
  exists hi, lo. split; [exact Hlen|].
  assert (Hwire : wire w1 = wire w ++ hi :: lo :: msg) by now subst w1.
  pose proof (recv_frame_keeps w1) as (_ & Hkeep & _). cbv zeta in Hkeep.
  destruct (recv_frame w1) as [[e|response] w2] eqn:H3; cbn [snd] in Hkeep.
  - erewrite authorize_normalizes
      by (rewrite exchange_run, H1, H2, H3; reflexivity).
    cbn [snd wire write_log]. congruence.
  - destruct (set_network_message response) as [e|iso] eqn:H4.
    + erewrite authorize_normalizes
        by (rewrite exchange_run, H1, H2, H3, H4; reflexivity).
      cbn [snd wire write_log]. congruence.
    + erewrite authorize_returns
        by (rewrite exchange_run, H1, H2, H3, H4; reflexivity).
      cbn [snd]. congruence.
Qed.

Lemma request_written_once_witness :
  let w := host_delivering [] in
  let msg := wire_bytes (authorization_request sample_now "4111111111111111"
                           "2512" "123" 1000) in
  exists hi lo,
    struct_unpack_H [hi; lo] = inr (N.of_nat (length msg))
    /\ wire (snd (send_iso_authorization (codec := spec_codec) "203.0.113.7"
                    8583 "4111111111111111" "2512" "123" 1000 w))
       = wire w ++ hi :: lo :: msg.
Proof.
  intros w msg.
  apply (request_written_once (codec := spec_codec) "203.0.113.7" 8583
           "4111111111111111" "2512" "123" 1000 w
           (snd (send_frame "203.0.113.7" 8583 msg w)) msg);
    vm_compute; reflexivity.
Defined.

(** ** The texts of the request *)

Lemma decimal_from_acc (s : string) : forall acc : N,
  decimal_from acc s
  = option_map (fun v => acc * 10 ^ N.of_nat (String.length s) + v)%N
               (decimal_from 0 s).
Proof.
  induction s as [|c s IH]; intros acc.
  - simpl. f_equal. lia.
  - cbn [decimal_from String.length]. destruct (digit_value c) as [d|];
      [|reflexivity].
    rewrite (IH (10 * acc + d)%N), (IH (10 * 0 + d)%N).
    destruct (decimal_from 0 s) as [v|]; [|reflexivity].
    cbn [option_map]. f_equal. rewrite Nat2N.inj_succ, N.pow_succ_r'. lia.
Qed.

Lemma zero_fill_min (width : nat) (s : string) :
  width <= String.length (zero_fill width s).
Proof. unfold zero_fill. rewrite length_app_string, length_zeros. lia. Qed.

Lemma zero_fill_value (width : nat) (n : N) :
  decimal_from 0 (zero_fill width (str_N n)) = Some n
  /\ zero_fill width (str_N n) <> "".
Proof.
  unfold zero_fill. rewrite decimal_from_zeros, str_N_value.
  split; [reflexivity|]. intros H.
  apply (f_equal String.length) in H.
  rewrite length_app_string in H. simpl in H.
  pose proof (str_digits_nonempty (N.to_nat (N.log2 n)) n) as Hne.
  fold (str_N n) in Hne. destruct (str_N n); [congruence | simpl in H; lia].
Qed.

Lemma two_digits (x : N) :
  (x < 100)%N ->
  String.length (zero_fill 2 (str_N x)) = 2
  /\ forall acc, decimal_from acc (zero_fill 2 (str_N x))
                 = Some (acc * 100 + x)%N.
Proof.
  intros Hx.
  assert (Hlen : String.length (zero_fill 2 (str_N x)) = 2).
  { apply zero_fill_length, (str_N_length _ 1).
    change (10 ^ N.of_nat 2)%N with 100%N. exact Hx. }
  split; [exact Hlen|]. intros acc.
  rewrite decimal_from_acc, Hlen, (proj1 (zero_fill_value 2 x)).
  reflexivity.
Qed.

(** X10. For a clock reading whose month, day, hour, minute and second are
    below 100 (as every reading of [utcnow] is), field 7 of the request is
    ten decimal digits: two each for month, day, hour, minute and second,
    in that order. *)
Theorem transmission_time_ten_digits (now : datetime)
    (pan expiry cvv : string) (amount : Z) :
  (month now < 100)%N -> (day now < 100)%N -> (hour now < 100)%N ->
  (minute now < 100)%N -> (second now < 100)%N ->
  exists s,
    Iso8583.get_bit 7 (authorization_request now pan expiry cvv amount)
    = Some s
    /\ String.length s = 10
    /\ decimal_value s
       = Some (month now * 10 ^ 8 + day now * 10 ^ 6 + hour now * 10 ^ 4
               + minute now * 10 ^ 2 + second now)%N.
Proof.
  intros Hm Hd HH HM HS.
  exists (strftime_mdHMS now). split; [reflexivity|].
  destruct (two_digits _ Hm) as [Lm Vm]. destruct (two_digits _ Hd) as [Ld Vd].
  destruct (two_digits _ HH) as [LH VH]. destruct (two_digits _ HM) as [LM VM].
  destruct (two_digits _ HS) as [LS VS].
  assert (Hlen : String.length (strftime_mdHMS now) = 10).
  { unfold strftime_mdHMS. rewrite !length_app_string. lia. }
  split; [exact Hlen|].
  unfold decimal_value.
  destruct (strftime_mdHMS now) eqn:E; [discriminate Hlen|]. rewrite <- E.
  unfold strftime_mdHMS.
  rewrite decimal_from_app, Vm. cbv beta iota.
  rewrite decimal_from_app, Vd. cbv beta iota.
  rewrite decimal_from_app, VH. cbv beta iota.
  rewrite decimal_from_app, VM. cbv beta iota.
  rewrite VS. f_equal. lia.
Qed.

Lemma transmission_time_ten_digits_witness :
  exists s,
    Iso8583.get_bit 7 (authorization_request sample_now "4111111111111111"
                         "2512" "123" 1000) = Some s
    /\ String.length s = 10
    /\ decimal_value s
       = Some (month sample_now * 10 ^ 8 + day sample_now * 10 ^ 6
               + hour sample_now * 10 ^ 4 + minute sample_now * 10 ^ 2
               + second sample_now)%N.
Proof.
  apply (transmission_time_ten_digits sample_now); vm_compute; reflexivity.
Defined.

(** X11. The amount is never cut: field 4 is at least twelve characters;
    for every amount from 0 on its digits denote the amount, however large;
    for a negative amount it is a minus sign before the digits of the
    absolute value, which is not a decimal number. *)
Theorem amount_text_denotes_amount (now : datetime) (pan expiry cvv : string)
    (amount : Z) :
  let field4 := format_012 amount in
  Iso8583.get_bit 4 (authorization_request now pan expiry cvv amount)
  = Some field4
  /\ 12 <= String.length field4
  /\ ((0 <= amount)%Z -> decimal_value field4 = Some (Z.to_N amount))
  /\ ((amount < 0)%Z ->
      exists digits,
        field4 = "-" +:+ digits
        /\ decimal_value digits = Some (Z.abs_N amount)
        /\ decimal_value field4 = None).
Proof.
  cbv zeta. split; [reflexivity|]. unfold format_012.
  destruct (amount <? 0)%Z eqn:E.
  - apply Z.ltb_lt in E. split; [|split; [lia|]].
    + pose proof (zero_fill_min 11 (str_N (Z.abs_N amount))).
      rewrite length_app_string. change (String.length "-") with 1. lia.
    + intros _. exists (zero_fill 11 (str_N (Z.abs_N amount))).
      split; [reflexivity|]. split; [|reflexivity].
      destruct (zero_fill_value 11 (Z.abs_N amount)) as [Hv Hne].
      unfold decimal_value.
      destruct (zero_fill 11 (str_N (Z.abs_N amount))) eqn:F; [congruence|].
      exact Hv.
  - apply Z.ltb_ge in E. split; [apply zero_fill_min|]. split; [|lia].
    intros _. destruct (zero_fill_value 12 (Z.to_N amount)) as [Hv Hne].
    unfold decimal_value.
    destruct (zero_fill 12 (str_N (Z.to_N amount))) eqn:F; [congruence|].
    exact Hv.
Qed.

(** * The payout wrappers *)

Module PayoutFacts.

Import Payout.

(** One case per outcome of a library operation or a test. *)
Ltac outcome :=
  match goal with
  | |- context [match ?r with inl _ => _ | inr _ => _ end] =>
      destruct r eqn:?
  | |- context [match ?a with Callable _ => _ | Plain _ => _ end] =>
      destruct a eqn:?
  | |- context [if ?b then _ else _] => destruct b eqn:?
  end; cbn -[all truth].

Ltac run_wrapper :=
  unfold send_erc20_payout, send_trc20_payout, erc20_attempt,
    trc20_attempt, erc20_on_error, trc20_on_error, bind, try_except,
    perform, lift, ret, raise, datetime_now, logging; cbn -[all truth].

Section Facts.

Context {decimal : DecimalLib} {eth : Web3Lib} {trx : TronLib}.

Lemma all_false_iff (a b c d e : bool) :
  all [a; b; c; d; e] = false
  <-> a = false \/ b = false \/ c = false \/ d = false \/ e = false.
Proof. destruct a, b, c, d, e; cbn; intuition congruence. Qed.

Lemma all4_false_iff (a b c d : bool) :
  all [a; b; c; d] = false
  <-> a = false \/ b = false \/ c = false \/ d = false.
Proof. destruct a, b, c, d; cbn; intuition congruence. Qed.

Lemma truth_text (s : string) : truth (Some s) = false <-> s = "".
Proof. destruct s; cbn; split; congruence. Qed.

Lemma erc20_guard_only (private_key : option string) (to_address : string)
    (amount : Decimal) (contract_address infura_url : option string)
    (w : Env) :
  truth private_key = false \/ to_address = ""
  \/ Decimal_truth amount = false \/ truth contract_address = false
  \/ truth infura_url = false ->
  let run := send_erc20_payout private_key to_address amount
               contract_address infura_url w in
  fst run = inl (ValueError "Missing ERC20 payout parameters.")
  /\ journal (snd run) = journal w ++ [erc20_info_line to_address amount w]
  /\ performed (snd run) = performed w.
Proof.
  intros Hmissing.
  assert (Hguard : all [truth private_key; truth (Some to_address);
                        Decimal_truth amount; truth contract_address;
                        truth infura_url] = false).
  { apply all_false_iff. rewrite truth_text. exact Hmissing. }
  cbv zeta. unfold send_erc20_payout, bind, datetime_now, logging.
  cbn [fst snd]. rewrite Hguard. repeat split.
Qed.

(** X12. ERC20 payout, a missing parameter: when the private key, the
    contract address or the node URL is [None] or empty, the recipient is
    empty, or the amount is zero, the function raises [ValueError]
    "Missing ERC20 payout parameters.": only the "Initiating" line is
    logged and no library operation is performed. *)
Theorem erc20_missing_parameter (private_key : option string)
    (to_address : string) (amount : Decimal)
    (contract_address infura_url : option string) (w : Env) :
  truth private_key = false \/ to_address = ""
  \/ Decimal_truth amount = false \/ truth contract_address = false
  \/ truth infura_url = false ->
  let run := send_erc20_payout private_key to_address amount
               contract_address infura_url w in
  fst run = inl (ValueError "Missing ERC20 payout parameters.")
  /\ journal (snd run) = journal w ++ [erc20_info_line to_address amount w]
  /\ performed (snd run) = performed w.
Proof.
  intros Hmissing. cbv zeta.
  unfold send_erc20_payout, bind, datetime_now, logging. cbn [fst snd].
  replace (all [truth private_key; truth (Some to_address);
                Decimal_truth amount; truth contract_address;
                truth infura_url]) with false; [repeat split|].
  symmetry. apply all_false_iff. rewrite truth_text. exact Hmissing.
Qed.

(** X13. ERC20 payout, node not reachable: when the parameters are there
    and [is_connected()] answers [False], the function raises
    [ConnectionError] "Failed to connect to Ethereum node." after logging
    it; the only library operations are the creation of the client and the
    connection test, so nothing is signed or sent. *)
Theorem erc20_not_connected (private_key : option string)
    (to_address : string) (amount : Decimal)
    (contract_address infura_url : option string) (w : Env) (client : web3) :
  all [truth private_key; truth (Some to_address); Decimal_truth amount;
       truth contract_address; truth infura_url] = true ->
  Web3_HTTPProvider infura_url = inr client ->
  is_connected client = inr false ->
  let run := send_erc20_payout private_key to_address amount
               contract_address infura_url w in
  fst run = inl (ConnectionError "Failed to connect to Ethereum node.")
  /\ journal (snd run)
     = journal w
       ++ [erc20_info_line to_address amount w;
           (ERROR, "[" +:+ now_at w (S (readings w))
                   +:+ "] ERC20 payout failed: "
                   +:+ "Failed to connect to Ethereum node.")]
  /\ performed (snd run) = performed w ++ [op_Web3; op_is_connected].
Proof.
  intros Hguard Hclient Hconnected. cbv zeta.
  run_wrapper. rewrite Hguard. cbn. rewrite Hclient, Hconnected. cbn.
  rewrite <- !app_assoc. repeat split.
Qed.

Lemma erc20_attempt_keeps (private_key : option string)
    (to_address : string) (amount : Decimal)
    (contract_address infura_url : option string) (w : Env) :
  let w' := snd (erc20_attempt private_key to_address amount
                   contract_address infura_url w) in
  journal w' = journal w /\ readings w' = readings w
  /\ now_at w' = now_at w /\ getenv w' = getenv w.
Proof.
  cbv zeta. run_wrapper. repeat outcome; repeat split.
Qed.

Lemma trc20_attempt_keeps (tron_private_key : option string)
    (to_address : string) (amount : Decimal)
    (contract_address : option string) (w : Env) :
  let w' := snd (trc20_attempt tron_private_key to_address amount
                   contract_address w) in
  journal w' = journal w /\ readings w' = readings w
  /\ now_at w' = now_at w /\ getenv w' = getenv w.
Proof.
  cbv zeta. run_wrapper. repeat outcome; repeat split.
Qed.

(** X14. ERC20 payout, failures past the guard.  The [try] (lines 44-66)
    starts after one clock reading and the "Initiating" line.  When it
    raises [e], whichever step did, the function raises the same [e]: it
    neither returns a value nor raises another exception; one error line
    with [str(e)] and the second clock reading is logged after the
    "Initiating" line, and the handler performs no library operation.
    When the [try] returns, the handler does nothing.  In particular an
    exception of the first operation, the creation of the client, reaches
    the caller as it is, after that one operation. *)
Theorem erc20_failure_logged_and_raised (private_key : option string)
    (to_address : string) (amount : Decimal)
    (contract_address infura_url : option string) (w : Env) :
  all [truth private_key; truth (Some to_address); Decimal_truth amount;
       truth contract_address; truth infura_url] = true ->
  let run := send_erc20_payout private_key to_address amount
               contract_address infura_url w in
  let attempt := erc20_attempt private_key to_address amount
                   contract_address infura_url
                   (entered (erc20_info_line to_address amount w) w) in
  (forall e,
     fst attempt = inl e ->
     fst run = inl e
     /\ journal (snd run)
        = journal w
          ++ [erc20_info_line to_address amount w;
              (ERROR, "[" +:+ now_at w (S (readings w))
                      +:+ "] ERC20 payout failed: " +:+ str e)]
     /\ performed (snd run) = performed (snd attempt)
     /\ readings (snd run) = S (S (readings w)))
  /\ (forall result, fst attempt = inr result -> run = attempt)
  /\ (forall e,
        Web3_HTTPProvider infura_url = inl e ->
        fst run = inl e
        /\ performed (snd run) = performed w ++ [op_Web3]).
Proof.
  intros Hguard. cbv zeta.
  pose proof (erc20_attempt_keeps private_key to_address amount
                contract_address infura_url
                (entered (erc20_info_line to_address amount w) w))
    as (Hjournal & Hreadings & Hnow & _).
  cbv zeta in Hjournal, Hreadings, Hnow.
  assert (Hrun : send_erc20_payout private_key to_address amount
                   contract_address infura_url w
                 = try_except
                     (erc20_attempt private_key to_address amount
                        contract_address infura_url)
                     erc20_on_error
                     (entered (erc20_info_line to_address amount w) w)).
  { unfold send_erc20_payout, bind, datetime_now, logging.
    cbn [fst snd]. rewrite Hguard. reflexivity. }
  rewrite Hrun. unfold try_except.
  destruct (erc20_attempt private_key to_address amount contract_address
              infura_url (entered (erc20_info_line to_address amount w) w))
    as [[e'|result'] w1] eqn:Hattempt; cbn [fst snd] in *.
  - split; [|split].
    + intros e [= <-].
      unfold erc20_on_error, bind, datetime_now, logging, raise.
      cbn [fst snd journal performed readings now_at].
      rewrite Hjournal, Hreadings, Hnow. cbn [entered journal readings].
      rewrite <- app_assoc. repeat split.
    + intros result [=].
    + intros e He. revert Hattempt. unfold erc20_attempt.
      unfold bind at 1. unfold perform at 1. rewrite He.
      intros [= <- <-].
      unfold erc20_on_error, bind, datetime_now, logging, raise.
      cbn [fst snd journal performed readings now_at entered].
      split; reflexivity.
  - split; [|split].
    + intros e [=].
    + intros result _. reflexivity.
    + intros e He. revert Hattempt. unfold erc20_attempt.
      unfold bind at 1. unfold perform at 1. rewrite He. intros [=].
Qed.

(** X15. ERC20 payout, success: a returned text is the hexadecimal form of
    the hash that [send_raw_transaction] returned for a transaction built
    with gas 90000; the node had answered that it is connected, the fifteen
    library operations were performed once each in the order of the
    source, and only the "Initiating" line was logged. *)
Theorem erc20_success (private_key : option string) (to_address : string)
    (amount : Decimal) (contract_address infura_url : option string)
    (w : Env) (result : string) :
  let run := send_erc20_payout private_key to_address amount
               contract_address infura_url w in
  fst run = inr result ->
  all [truth private_key; truth (Some to_address); Decimal_truth amount;
       truth contract_address; truth infura_url] = true
  /\ journal (snd run) = journal w ++ [erc20_info_line to_address amount w]
  /\ performed (snd run) = performed w ++ erc20_operations
  /\ exists client call chain price count tx acct signed_tx sent,
       Web3_HTTPProvider infura_url = inr client
       /\ is_connected client = inr true
       /\ build_transaction call {| chainId := chain; gas := 90000;
                                    gasPrice := price; nonce := count |}
          = inr tx
       /\ sign_transaction acct tx = inr signed_tx
       /\ send_raw_transaction client signed_tx = inr sent
       /\ to_hex client sent = inr result.
Proof.
  cbv zeta. run_wrapper.
  destruct (all _) eqn:Hguard; cbn; [|discriminate].
  repeat outcome; intros H; try discriminate H.
  injection H as <-. split; [reflexivity|]. split; [reflexivity|].
  split; [unfold erc20_operations; rewrite <- !app_assoc; reflexivity|].
  match goal with
  | H : negb ?b = false |- _ => destruct b; [clear H | discriminate H]
  end.
  do 9 eexists. repeat split; eassumption.
Qed.

(** X16. ERC20 payout, always: the library operations a call performs are
    an initial part of the fifteen of a complete payout, in that order; in
    particular [send_raw_transaction] is performed at most once. *)
Theorem erc20_operations_in_order (private_key : option string)
    (to_address : string) (amount : Decimal)
    (contract_address infura_url : option string) (w : Env) :
  let run := send_erc20_payout private_key to_address amount
               contract_address infura_url w in
  exists k,
    performed (snd run) = performed w ++ take k erc20_operations
    /\ times op_send_raw_transaction (take k erc20_operations) <= 1.
Proof.
  cbv zeta. run_wrapper.
  destruct (all _) eqn:Hguard; cbn;
    [|exists 0; rewrite app_nil_r; split; [reflexivity | cbn; lia]].
  repeat outcome; rewrite <- ?app_assoc; cbn [app];
    first [ exists 1; split; [reflexivity | vm_compute; lia]
          | exists 2; split; [reflexivity | vm_compute; lia]
          | exists 3; split; [reflexivity | vm_compute; lia]
          | exists 4; split; [reflexivity | vm_compute; lia]
          | exists 5; split; [reflexivity | vm_compute; lia]
          | exists 6; split; [reflexivity | vm_compute; lia]
          | exists 7; split; [reflexivity | vm_compute; lia]
          | exists 8; split; [reflexivity | vm_compute; lia]
          | exists 9; split; [reflexivity | vm_compute; lia]
          | exists 10; split; [reflexivity | vm_compute; lia]
          | exists 11; split; [reflexivity | vm_compute; lia]
          | exists 12; split; [reflexivity | vm_compute; lia]
          | exists 13; split; [reflexivity | vm_compute; lia]
          | exists 14; split; [reflexivity | vm_compute; lia]
          | exists 15; split; [reflexivity | vm_compute; lia] ].
Qed.

(** X17. TRC20 payout, failures: with a key or contract address that is
    [None] or empty, an empty recipient or a zero amount, the function
    raises [ValueError] "Missing TRC20 payout parameters." after the
    "Initiating" line only, and performs no library operation.  Past that
    guard, when the [try] (lines 79-104) raises [e], whichever step did,
    the function raises the same [e]: it neither returns a value nor
    raises another exception; one error line with [str(e)] and the second
    clock reading is logged after the "Initiating" line, and the handler
    performs no library operation. *)
Theorem trc20_failures (tron_private_key : option string)
    (to_address : string) (amount : Decimal)
    (contract_address : option string) (w : Env) :
  let run := send_trc20_payout tron_private_key to_address amount
               contract_address w in
  let attempt := trc20_attempt tron_private_key to_address amount
                   contract_address
                   (entered (trc20_info_line to_address amount w) w) in
  (truth tron_private_key = false \/ to_address = ""
   \/ Decimal_truth amount = false \/ truth contract_address = false ->
   fst run = inl (ValueError "Missing TRC20 payout parameters.")
   /\ journal (snd run) = journal w ++ [trc20_info_line to_address amount w]
   /\ performed (snd run) = performed w)
  /\ (all [truth tron_private_key; truth (Some to_address);
           Decimal_truth amount; truth contract_address] = true ->
      (forall e,
         fst attempt = inl e ->
         fst run = inl e
         /\ journal (snd run)
            = journal w
              ++ [trc20_info_line to_address amount w;
                  (ERROR, "[" +:+ now_at w (S (readings w))
                          +:+ "] TRC20 payout failed: " +:+ str e)]
         /\ performed (snd run) = performed (snd attempt)
         /\ readings (snd run) = S (S (readings w)))
      /\ (forall txid, fst attempt = inr txid -> run = attempt)
      /\ (forall e,
            Tron_new = inl e ->
            fst run = inl e
            /\ performed (snd run) = performed w ++ [op_Tron])).
Proof.
  cbv zeta. split.
  - intros Hmissing.
    assert (Hguard : all [truth tron_private_key; truth (Some to_address);
                          Decimal_truth amount; truth contract_address]
                     = false).
    { apply all4_false_iff. rewrite truth_text. exact Hmissing. }
    unfold send_trc20_payout, bind, datetime_now, logging.
    cbn [fst snd]. rewrite Hguard. repeat split.
  - intros Hguard.
    pose proof (trc20_attempt_keeps tron_private_key to_address amount
                  contract_address
                  (entered (trc20_info_line to_address amount w) w))
      as (Hjournal & Hreadings & Hnow & _).
    cbv zeta in Hjournal, Hreadings, Hnow.
    assert (Hrun : send_trc20_payout tron_private_key to_address amount
                     contract_address w
                   = try_except
                       (trc20_attempt tron_private_key to_address amount
                          contract_address)
                       trc20_on_error
                       (entered (trc20_info_line to_address amount w) w)).
    { unfold send_trc20_payout, bind, datetime_now, logging.
      cbn [fst snd]. rewrite Hguard. reflexivity. }
    rewrite Hrun. unfold try_except.
    destruct (trc20_attempt tron_private_key to_address amount
                contract_address
                (entered (trc20_info_line to_address amount w) w))
      as [[e'|result'] w1] eqn:Hattempt; cbn [fst snd] in *.
    + split; [|split].
      * intros e [= <-].
        unfold trc20_on_error, bind, datetime_now, logging, raise.
        cbn [fst snd journal performed readings now_at].
        rewrite Hjournal, Hreadings, Hnow. cbn [entered journal readings].
        rewrite <- app_assoc. repeat split.
      * intros result [=].
      * intros e He. revert Hattempt. unfold trc20_attempt.
        unfold bind at 1. unfold perform at 1. rewrite He.
        intros [= <- <-].
        unfold trc20_on_error, bind, datetime_now, logging, raise.
        cbn [fst snd journal performed readings now_at entered].
        split; reflexivity.
    + split; [|split].
      * intros e [=].
      * intros result _. reflexivity.
      * intros e He. revert Hattempt. unfold trc20_attempt.
        unfold bind at 1. unfold perform at 1. rewrite He. intros [=].
Qed.

(** X18. TRC20 payout, success: a returned transaction id is never empty;
    it is the value under "txid" of the dictionary that [broadcast]
    returned for the transaction that was signed with the private key made
    from the given hexadecimal text, after it was built from the transfer
    of the converted amount to the recipient on the given contract, owned
    by the address of that key and limited to a fee of 2000000: every
    step took the result of the one before.  Every library operation was
    performed once in the order of the source and only the "Initiating"
    line was logged. *)
Theorem trc20_success (tron_private_key : option string)
    (to_address : string) (amount : Decimal)
    (contract_address : option string) (w : Env) (txid : string) :
  let run := send_trc20_payout tron_private_key to_address amount
               contract_address w in
  fst run = inr txid ->
  txid <> ""
  /\ journal (snd run) = journal w ++ [trc20_info_line to_address amount w]
  /\ (exists callable,
        performed (snd run) = performed w ++ trc20_operations callable)
  /\ exists client raw_key priv_key contract attribute decimals value amt
       call owner owned limited built txn result,
       Tron_new = inr client
       /\ bytes_fromhex tron_private_key = inr raw_key
       /\ PrivateKey raw_key = inr priv_key
       /\ get_contract client contract_address = inr contract
       /\ functions_decimals contract = inr attribute
       /\ (attribute = Callable (inr decimals) \/ attribute = Plain decimals)
       /\ Decimal_of_str (Decimal_str amount) = inr value
       /\ Decimal_units value decimals = inr amt
       /\ tron_transfer contract to_address amt = inr call
       /\ to_base58check_address priv_key = inr owner
       /\ with_owner call owner = inr owned
       /\ fee_limit owned 2000000 = inr limited
       /\ build limited = inr built
       /\ sign built priv_key = inr txn
       /\ broadcast txn = inr result
       /\ result !! "txid" = Some txid.
Proof.
  cbv zeta. run_wrapper.
  destruct (all _) eqn:Hguard; cbn -[all truth]; [|discriminate].
  repeat outcome; intros H; try discriminate H; injection H as <-;
    match goal with
    | H : negb (truth ?t) = false |- _ =>
        destruct t as [[|? ?]|] eqn:Htxid; try discriminate H
    end;
    (split; [discriminate|]); (split; [reflexivity|]);
    (split;
     [first [ exists true; unfold trc20_operations; cbn [app];
              rewrite <- !app_assoc; reflexivity
            | exists false; unfold trc20_operations; cbn [app];
              rewrite <- !app_assoc; reflexivity ]|]);
    do 15 eexists;
    repeat match goal with
           | |- _ /\ _ => split
           end;
    first [ eassumption | reflexivity | left; reflexivity
          | right; reflexivity ].
Qed.

(** X19. TRC20 payout, a broadcast without transaction id: when every
    library operation up to [broadcast] was performed and the call raises
    [e], either [broadcast] itself raised [e], or it returned a dictionary
    whose "txid" is missing or empty and [e] is [TronError] "TRC20
    broadcast failed: " followed by the "message" of the dictionary, or by
    the text of the dictionary when it has none. *)
Theorem trc20_broadcast_without_txid (tron_private_key : option string)
    (to_address : string) (amount : Decimal)
    (contract_address : option string) (w : Env) (callable : bool)
    (e : exn) :
  let run := send_trc20_payout tron_private_key to_address amount
               contract_address w in
  performed (snd run) = performed w ++ trc20_operations callable ->
  fst run = inl e ->
  exists txn,
    broadcast txn = inl e
    \/ exists result,
         broadcast txn = inr result
         /\ truth (result !! "txid") = false
         /\ e = TronError ("TRC20 broadcast failed: "
                           +:+ default (str_result result)
                                 (result !! "message")).
Proof.
  cbv zeta. run_wrapper.
  destruct (all _) eqn:Hguard; cbn -[all truth].
  2:{ intros Hops. apply (f_equal length) in Hops.
      rewrite length_app in Hops. destruct callable; cbn in Hops; lia. }
  repeat outcome; rewrite <- ?app_assoc; intros Hops H;
    try discriminate H; injection H as <-;
    try (apply app_inv_head in Hops; destruct callable; discriminate Hops);
    eexists;
    first [ left; eassumption
          | right; eexists; split; [eassumption|];
            split; [now apply negb_true_iff | reflexivity] ].
Qed.

Lemma upper_char_twice (c : ascii) : upper_char (upper_char c) = upper_char c.
Proof. destruct c as [[] [] [] [] [] [] [] []]; reflexivity. Qed.

Lemma upper_twice (s : string) : upper (upper s) = upper s.
Proof.
  induction s as [|c s IH]; [reflexivity|].
  cbn [upper]. now rewrite upper_char_twice, IH.
Qed.

(** X20. The unified entry point matches the network without regard to the
    case of its letters and does not look at the currency: a call with any
    currency and the network in upper case does exactly what the call
    does. *)
Theorem payout_ignores_case_and_currency (wallet amount currency currency'
    network : string) (w : Env) :
  process_crypto_payout wallet amount currency network w
  = process_crypto_payout wallet amount currency' (upper network) w.
Proof. unfold process_crypto_payout. now rewrite upper_twice. Qed.

(** X21. The unified entry point, refusals: an amount that [Decimal] does
    not accept raises the error of [Decimal], whatever the network; with
    an accepted amount, a network that is neither ERC20 nor TRC20 in upper
    case raises [ValueError] "Unsupported network: must be ERC20 or TRC20".
    In both cases nothing is logged, no variable is read and no library
    operation is performed: the environment is unchanged. *)
Theorem payout_refusals (wallet amount currency network : string) (w : Env) :
  (forall e,
     Decimal_of_str amount = inl e ->
     process_crypto_payout wallet amount currency network w = (inl e, w))
  /\ (forall value,
        Decimal_of_str amount = inr value ->
        upper network <> "ERC20" -> upper network <> "TRC20" ->
        process_crypto_payout wallet amount currency network w
        = (inl (ValueError "Unsupported network: must be ERC20 or TRC20"),
           w)).
Proof.
  split.
  - intros e He. unfold process_crypto_payout, bind, lift. now rewrite He.
  - intros value Hv He Ht.
    unfold process_crypto_payout, bind, lift. rewrite Hv. cbn.
    apply String.eqb_neq in He, Ht. now rewrite He, Ht.
Qed.

Lemma trc20_guard_only (tron_private_key : option string)
    (to_address : string) (amount : Decimal)
    (contract_address : option string) (w : Env) :
  truth tron_private_key = false \/ to_address = ""
  \/ Decimal_truth amount = false \/ truth contract_address = false ->
  let run := send_trc20_payout tron_private_key to_address amount
               contract_address w in
  fst run = inl (ValueError "Missing TRC20 payout parameters.")
  /\ journal (snd run) = journal w ++ [trc20_info_line to_address amount w]
  /\ performed (snd run) = performed w.
Proof.
  intros Hmissing.
  assert (Hguard : all [truth tron_private_key; truth (Some to_address);
                        Decimal_truth amount; truth contract_address]
                   = false).
  { apply all4_false_iff. rewrite truth_text. exact Hmissing. }
  cbv zeta. unfold send_trc20_payout, bind, datetime_now, logging.
  cbn [fst snd]. rewrite Hguard. repeat split.
Qed.

(** X22. Entry point and wrappers together.  With an amount that [Decimal]
    accepts, a call for the network ERC20 (in any case of letters) is the
    call of [send_erc20_payout] with the wallet as recipient, the
    converted amount, and the process variables ERC20_PRIVATE_KEY as
    private key, ERC20_CONTRACT_ADDRESS as contract address and
    INFURA_URL as node URL, each in its own place; a call for TRC20 is the
    call of [send_trc20_payout] with TRC20_PRIVATE_KEY as private key and
    TRC20_CONTRACT_ADDRESS as contract address.  Hence, when one of the
    variables of the network is unset or empty, the wallet is empty or the
    amount is zero, the call raises [ValueError] "Missing ... payout
    parameters." and performs no library operation. *)
Theorem payout_with_unset_variable (wallet amount currency network : string)
    (w : Env) (value : Decimal) :
  Decimal_of_str amount = inr value ->
  let run := process_crypto_payout wallet amount currency network w in
  (upper network = "ERC20" ->
   run = send_erc20_payout (getenv w "ERC20_PRIVATE_KEY") wallet value
           (getenv w "ERC20_CONTRACT_ADDRESS") (getenv w "INFURA_URL") w
   /\ (truth (getenv w "ERC20_PRIVATE_KEY") = false \/ wallet = ""
       \/ Decimal_truth value = false
       \/ truth (getenv w "ERC20_CONTRACT_ADDRESS") = false
       \/ truth (getenv w "INFURA_URL") = false ->
       fst run = inl (ValueError "Missing ERC20 payout parameters.")
       /\ performed (snd run) = performed w))
  /\ (upper network = "TRC20" ->
      run = send_trc20_payout (getenv w "TRC20_PRIVATE_KEY") wallet value
              (getenv w "TRC20_CONTRACT_ADDRESS") w
      /\ (truth (getenv w "TRC20_PRIVATE_KEY") = false \/ wallet = ""
          \/ Decimal_truth value = false
          \/ truth (getenv w "TRC20_CONTRACT_ADDRESS") = false ->
          fst run = inl (ValueError "Missing TRC20 payout parameters.")
          /\ performed (snd run) = performed w)).
Proof.
  intros Hvalue. cbv zeta. split; intros Hnet.
  - assert (Hrun : process_crypto_payout wallet amount currency network w
                   = send_erc20_payout (getenv w "ERC20_PRIVATE_KEY") wallet
                       value (getenv w "ERC20_CONTRACT_ADDRESS")
                       (getenv w "INFURA_URL") w).
    { unfold process_crypto_payout. rewrite Hnet.
      unfold bind at 1. unfold lift. rewrite Hvalue. reflexivity. }
    rewrite Hrun. split; [reflexivity|]. intros Hmissing.
    destruct (erc20_guard_only _ _ _ _ _ w Hmissing) as (H1 & _ & H3).
    now split.
  - assert (Hrun : process_crypto_payout wallet amount currency network w
                   = send_trc20_payout (getenv w "TRC20_PRIVATE_KEY") wallet
                       value (getenv w "TRC20_CONTRACT_ADDRESS") w).
    { unfold process_crypto_payout. rewrite Hnet.
      unfold bind at 1. unfold lift. rewrite Hvalue. reflexivity. }
    rewrite Hrun. split; [reflexivity|]. intros Hmissing.
    destruct (trc20_guard_only _ _ _ _ w Hmissing) as (H1 & _ & H3).
    now split.
Qed.

End Facts.

(** The wrappers on a small node, client and process. *)

Lemma erc20_missing_parameter_witness :
  let w := PayoutDemo.process PayoutDemo.configured in
  let run := send_erc20_payout (decimal := PayoutDemo.whole_amounts)
               (eth := PayoutDemo.node true) (Some "k1") "0xWallet" 0%N
               (Some "c1") (Some "https://node") w in
  fst run = inl (ValueError "Missing ERC20 payout parameters.")
  /\ journal (snd run)
     = journal w
       ++ [erc20_info_line (decimal := PayoutDemo.whole_amounts) "0xWallet"
             0%N w]
  /\ performed (snd run) = performed w.
Proof.
  intros w.
  apply (erc20_missing_parameter (decimal := PayoutDemo.whole_amounts)
           (eth := PayoutDemo.node true) (Some "k1") "0xWallet" 0%N
           (Some "c1") (Some "https://node") w).
  right; right; left. reflexivity.
Defined.

Lemma erc20_not_connected_witness :
  let w := PayoutDemo.process PayoutDemo.configured in
  let run := send_erc20_payout (decimal := PayoutDemo.whole_amounts)
               (eth := PayoutDemo.node false) (Some "k1") "0xWallet" 25%N
               (Some "c1") (Some "https://node") w in
  fst run = inl (ConnectionError "Failed to connect to Ethereum node.")
  /\ journal (snd run)
     = journal w
       ++ [erc20_info_line (decimal := PayoutDemo.whole_amounts) "0xWallet"
             25%N w;
           (ERROR, "[" +:+ now_at w (S (readings w))
                   +:+ "] ERC20 payout failed: "
                   +:+ "Failed to connect to Ethereum node.")]
  /\ performed (snd run) = performed w ++ [op_Web3; op_is_connected].
Proof.
  intros w.
  apply (erc20_not_connected (decimal := PayoutDemo.whole_amounts)
           (eth := PayoutDemo.node false) (Some "k1") "0xWallet" 25%N
           (Some "c1") (Some "https://node") w "https://node");
    reflexivity.
Defined.

Lemma erc20_failure_logged_and_raised_witness :
  let w := PayoutDemo.process PayoutDemo.configured in
  let e := ConnectionError "Failed to connect to Ethereum node." in
  let run := send_erc20_payout (decimal := PayoutDemo.whole_amounts)
               (eth := PayoutDemo.node false) (Some "k1") "0xWallet" 25%N
               (Some "c1") (Some "https://node") w in
  let attempt := erc20_attempt (decimal := PayoutDemo.whole_amounts)
                   (eth := PayoutDemo.node false) (Some "k1") "0xWallet"
                   25%N (Some "c1") (Some "https://node")
                   (entered
                      (erc20_info_line (decimal := PayoutDemo.whole_amounts)
                         "0xWallet" 25%N w) w) in
  fst attempt = inl e
  /\ fst run = inl e
  /\ journal (snd run)
     = journal w
       ++ [erc20_info_line (decimal := PayoutDemo.whole_amounts) "0xWallet"
             25%N w;
           (ERROR, "[" +:+ now_at w (S (readings w))
                   +:+ "] ERC20 payout failed: " +:+ str e)]
  /\ performed (snd run) = performed (snd attempt)
  /\ readings (snd run) = S (S (readings w)).
Proof.
  intros w e. split; [reflexivity|].
  apply (proj1 (erc20_failure_logged_and_raised
                  (decimal := PayoutDemo.whole_amounts)
                  (eth := PayoutDemo.node false) (Some "k1") "0xWallet"
                  25%N (Some "c1") (Some "https://node") w
                  ltac:(reflexivity)) e).
  reflexivity.
Defined.

Lemma erc20_success_witness :
  let w := PayoutDemo.process PayoutDemo.configured in
  let run := send_erc20_payout (decimal := PayoutDemo.whole_amounts)
               (eth := PayoutDemo.node true) (Some "k1") "0xWallet" 25%N
               (Some "c1") (Some "https://node") w in
  all [truth (Some "k1"); truth (Some "0xWallet");
       Decimal_truth (DecimalLib := PayoutDemo.whole_amounts) 25%N;
       truth (Some "c1"); truth (Some "https://node")] = true
  /\ journal (snd run)
     = journal w
       ++ [erc20_info_line (decimal := PayoutDemo.whole_amounts) "0xWallet"
             25%N w]
  /\ performed (snd run) = performed w ++ erc20_operations
  /\ exists client call chain price count tx acct signed_tx sent,
       Web3_HTTPProvider (Web3Lib := PayoutDemo.node true)
         (Some "https://node") = inr client
       /\ is_connected client = inr true
       /\ build_transaction call {| chainId := chain; gas := 90000;
                                    gasPrice := price; nonce := count |}
          = inr tx
       /\ sign_transaction acct tx = inr signed_tx
       /\ send_raw_transaction client signed_tx = inr sent
       /\ to_hex client sent = inr "0xhash".
Proof.
  intros w.
  apply (erc20_success (decimal := PayoutDemo.whole_amounts)
           (eth := PayoutDemo.node true) (Some "k1") "0xWallet" 25%N
           (Some "c1") (Some "https://node") w "0xhash").
  reflexivity.
Defined.

Lemma trc20_success_witness :
  let w := PayoutDemo.process PayoutDemo.configured in
  let run := send_trc20_payout (decimal := PayoutDemo.whole_amounts)
               (trx := PayoutDemo.tron_answering PayoutDemo.accepted)
               (Some "01") "TWallet" 25%N (Some "c2") w in
  "abc" <> ""
  /\ journal (snd run)
     = journal w
       ++ [trc20_info_line (decimal := PayoutDemo.whole_amounts) "TWallet"
             25%N w]
  /\ (exists callable,
        performed (snd run) = performed w ++ trc20_operations callable)
  /\ exists client raw_key priv_key contract attribute decimals value amt
       call owner owned limited built txn result,
       Tron_new (TronLib := PayoutDemo.tron_answering PayoutDemo.accepted)
       = inr client
       /\ bytes_fromhex
            (TronLib := PayoutDemo.tron_answering PayoutDemo.accepted)
            (Some "01") = inr raw_key
       /\ PrivateKey
            (TronLib := PayoutDemo.tron_answering PayoutDemo.accepted)
            raw_key = inr priv_key
       /\ get_contract client (Some "c2") = inr contract
       /\ functions_decimals contract = inr attribute
       /\ (attribute = Callable (inr decimals) \/ attribute = Plain decimals)
       /\ Decimal_of_str (DecimalLib := PayoutDemo.whole_amounts)
            (Decimal_str (DecimalLib := PayoutDemo.whole_amounts) 25%N)
          = inr value
       /\ Decimal_units value decimals = inr amt
       /\ tron_transfer contract "TWallet" amt = inr call
       /\ to_base58check_address priv_key = inr owner
       /\ with_owner call owner = inr owned
       /\ fee_limit owned 2000000 = inr limited
       /\ build limited = inr built
       /\ sign built priv_key = inr txn
       /\ broadcast txn = inr result
       /\ result !! "txid" = Some "abc".
Proof.
  intros w.
  apply (trc20_success (decimal := PayoutDemo.whole_amounts)
           (trx := PayoutDemo.tron_answering PayoutDemo.accepted)
           (Some "01") "TWallet" 25%N (Some "c2") w "abc").
  reflexivity.
Defined.

Lemma trc20_broadcast_without_txid_witness :
  let answer := PayoutDemo.rejected in
  exists txn,
    broadcast (TronLib := PayoutDemo.tron_answering answer) txn
    = inl (TronError "TRC20 broadcast failed: bad signature")
    \/ exists result,
         broadcast (TronLib := PayoutDemo.tron_answering answer) txn
         = inr result
         /\ truth (result !! "txid") = false
         /\ TronError "TRC20 broadcast failed: bad signature"
            = TronError ("TRC20 broadcast failed: "
                         +:+ default
                               (str_result
                                  (TronLib := PayoutDemo.tron_answering answer)
                                  result)
                               (result !! "message")).
Proof.
  intros answer.
  apply (trc20_broadcast_without_txid (decimal := PayoutDemo.whole_amounts)
           (trx := PayoutDemo.tron_answering answer)
           (Some "01") "TWallet" 25%N (Some "c2")
           (PayoutDemo.process PayoutDemo.configured) true
           (TronError "TRC20 broadcast failed: bad signature"));
    reflexivity.
Defined.

Lemma payout_with_unset_variable_witness :
  let w := PayoutDemo.process PayoutDemo.without_key in
  let run := process_crypto_payout (decimal := PayoutDemo.whole_amounts)
               (eth := PayoutDemo.node true)
               (trx := PayoutDemo.tron_answering PayoutDemo.accepted)
               "0xWallet" "25" "USDT" "erc20" w in
  run = send_erc20_payout (decimal := PayoutDemo.whole_amounts)
          (eth := PayoutDemo.node true) (getenv w "ERC20_PRIVATE_KEY")
          "0xWallet" 25%N (getenv w "ERC20_CONTRACT_ADDRESS")
          (getenv w "INFURA_URL") w
  /\ fst run = inl (ValueError "Missing ERC20 payout parameters.")
  /\ performed (snd run) = performed w.
Proof.
  intros w.
  destruct (proj1 (payout_with_unset_variable
                     (decimal := PayoutDemo.whole_amounts)
                     (eth := PayoutDemo.node true)
                     (trx := PayoutDemo.tron_answering PayoutDemo.accepted)
                     "0xWallet" "25" "USDT" "erc20" w 25%N
                     ltac:(reflexivity))
              ltac:(reflexivity)) as [Hrun Hmissing].
  split; [exact Hrun|]. apply Hmissing. left. reflexivity.
Defined.

End PayoutFacts.
